(** * The resilient WebSocket connection manager of the video-call client

    Shallow embedding of the class [WebSocketHandler]
    (client/src/components/VideoCall.tsx, second document of the file) and
    of the part of the browser it talks to: sockets with a [readyState],
    the timer table behind [setTimeout]/[setInterval], and a trace of the
    observable calls (frames sent, sockets closed, timers armed and
    cleared, error-sink and handler invocations).

    Conventions.
    - Every method is a computation in a state-and-exception monad [M];
      [try { .. } catch (e) { .. }] is [try_catch].
    - [console.log]/[console.error] are not modelled; the URL computed by
      [getWebSocketUrl] is not threaded through the socket model.
    - The optional error sink [onError] and the registered handlers are
      consumer code: a call to them is recorded in the trace.  A handler may
      throw; the sink does not.  Neither re-enters the manager.
    - The trace is kept most recent call first. *)

From Stdlib Require Import ZArith String List Lia.
From stdpp Require Import base option gmap strings list fin_maps.
Import ListNotations.
Local Open Scope string_scope.

(** ** JSON values *)

#[local] Set Warnings "-register-all".

Inductive json : Type :=
| JNull
| JBool (b : bool)
| JNum (n : Z)
| JStr (s : string)
| JArr (items : list json)
| JObj (fields : list (string * json)).

(** Own properties of a parsed object, keys being distinct after parsing. *)
Fixpoint own_property (key : string) (fields : list (string * json)) : option json :=
  match fields with
  | [] => None
  | (k, v) :: rest => if String.eqb k key then Some v else own_property key rest
  end.

(** A JavaScript value read from a message: [None] is [undefined]. *)
Definition jsvalue : Type := option json.

(** Truthiness, as tested by [if (message.error)]. *)
Definition truthy (v : jsvalue) : bool :=
  match v with
  | None => false
  | Some JNull => false
  | Some (JBool b) => b
  | Some (JNum n) => negb (Z.eqb n 0)
  | Some (JStr s) => negb (String.eqb s "")
  | Some (JArr _) => true
  | Some (JObj _) => true
  end.

(** Values that are thrown or handed to the error sink. *)
Inductive exn : Type :=
| Error (message : string)        (* new Error("...") *)
| Error_of (v : jsvalue)          (* new Error(message.error) *)
| SyntaxError (data : string)     (* thrown by JSON.parse *)
| TypeError (message : string)
| DOMException (message : string)
| Thrown (v : json).              (* anything a consumer handler throws *)

(** [message.key] for the keys the manager reads ([error] and [type],
    neither of which lives on a prototype): reading a property of [null]
    throws, primitives and arrays answer [undefined]. *)
Definition get_property (message : json) (key : string) : exn + jsvalue :=
  match message with
  | JNull => inl (TypeError ("Cannot read properties of null (reading '" ++ key ++ "')"))
  | JObj fields => inr (own_property key fields)
  | _ => inr None
  end.

(** The argument of [send(message: any)]: a JSON-representable payload, or
    a value [JSON.stringify] rejects. *)
Inductive any : Type :=
| Plain (v : json)
| Circular.

(** [JSON.stringify]: the frame text is identified with the value it
    serialises. *)
Definition JSON_stringify (message : any) : exn + json :=
  match message with
  | Plain v => inr v
  | Circular => inl (TypeError "Converting circular structure to JSON")
  end.

(** type MessageHandler = (message: any) => void; [h_run] is [None] when the
    callback returns and [Some e] when it throws [e]. *)
Record MessageHandler : Type := {
  h_id : nat;
  h_run : json -> option exn
}.

(** ** The browser side *)

Inductive ready : Type := CONNECTING | OPEN | CLOSING | CLOSED.

(** A socket created by [connect]: its [readyState] and the
    [connectionTimeout] handle its four event handlers close over
    ([None] until the handlers are assigned). *)
Record WebSocket : Type := {
  readyState : ready;
  connectionTimeout : option nat
}.

Inductive callback : Type := ConnectionTimeout | Reconnect | Ping.
Inductive timer_kind : Type := Timeout | Interval.

Record timer : Type := {
  t_kind : timer_kind;
  t_callback : callback;
  t_delay : Z
}.

Inductive event : Type :=
| EvOnError (e : exn)                                 (* this.onError(e) *)
| EvNewSocket (k : nat)                               (* new WebSocket(url) *)
| EvWsSend (k : nat) (frame : json)                   (* ws.send(text) *)
| EvWsClose (k : nat) (code : option Z)               (* ws.close(code?) *)
| EvSetTimer (id : nat) (kind : timer_kind) (cb : callback) (delay : Z)
| EvClearTimer (id : nat)
| EvHandler (h : nat) (payload : json).               (* handler(message) *)

Record Window : Type := {
  sockets : gmap nat WebSocket;
  timers : gmap nat timer;
  next_handle : nat;
  next_socket : nat;
  trace : list event
}.

(** ** The manager object *)

Record WebSocketHandler : Type := {
  ws : option nat;
  messageHandlers : gmap string MessageHandler;
  isConnected : bool;
  reconnectTimer : option nat;
  maxRetries : Z;
  retryCount : Z;
  retryDelay : Z;
  pingInterval : option nat;
  roomId : string;
  onError : bool      (* was the optional sink supplied? *)
}.

Record Sys : Type := {
  this : WebSocketHandler;
  window : Window
}.

Definition set_ws (v : option nat) (o : WebSocketHandler) : WebSocketHandler :=
  {| ws := v; messageHandlers := messageHandlers o; isConnected := isConnected o;
     reconnectTimer := reconnectTimer o; maxRetries := maxRetries o;
     retryCount := retryCount o; retryDelay := retryDelay o;
     pingInterval := pingInterval o; roomId := roomId o; onError := onError o |}.

Definition set_messageHandlers (v : gmap string MessageHandler) (o : WebSocketHandler)
  : WebSocketHandler :=
  {| ws := ws o; messageHandlers := v; isConnected := isConnected o;
     reconnectTimer := reconnectTimer o; maxRetries := maxRetries o;
     retryCount := retryCount o; retryDelay := retryDelay o;
     pingInterval := pingInterval o; roomId := roomId o; onError := onError o |}.

Definition set_isConnected (v : bool) (o : WebSocketHandler) : WebSocketHandler :=
  {| ws := ws o; messageHandlers := messageHandlers o; isConnected := v;
     reconnectTimer := reconnectTimer o; maxRetries := maxRetries o;
     retryCount := retryCount o; retryDelay := retryDelay o;
     pingInterval := pingInterval o; roomId := roomId o; onError := onError o |}.

Definition set_reconnectTimer (v : option nat) (o : WebSocketHandler) : WebSocketHandler :=
  {| ws := ws o; messageHandlers := messageHandlers o; isConnected := isConnected o;
     reconnectTimer := v; maxRetries := maxRetries o;
     retryCount := retryCount o; retryDelay := retryDelay o;
     pingInterval := pingInterval o; roomId := roomId o; onError := onError o |}.

Definition set_retryCount (v : Z) (o : WebSocketHandler) : WebSocketHandler :=
  {| ws := ws o; messageHandlers := messageHandlers o; isConnected := isConnected o;
     reconnectTimer := reconnectTimer o; maxRetries := maxRetries o;
     retryCount := v; retryDelay := retryDelay o;
     pingInterval := pingInterval o; roomId := roomId o; onError := onError o |}.

Definition set_retryDelay (v : Z) (o : WebSocketHandler) : WebSocketHandler :=
  {| ws := ws o; messageHandlers := messageHandlers o; isConnected := isConnected o;
     reconnectTimer := reconnectTimer o; maxRetries := maxRetries o;
     retryCount := retryCount o; retryDelay := v;
     pingInterval := pingInterval o; roomId := roomId o; onError := onError o |}.

Definition set_pingInterval (v : option nat) (o : WebSocketHandler) : WebSocketHandler :=
  {| ws := ws o; messageHandlers := messageHandlers o; isConnected := isConnected o;
     reconnectTimer := reconnectTimer o; maxRetries := maxRetries o;
     retryCount := retryCount o; retryDelay := retryDelay o;
     pingInterval := v; roomId := roomId o; onError := onError o |}.

(** ** The monad: state passing with thrown exceptions *)

Inductive outcome (A : Type) : Type :=
| Return (a : A)
| Throw (e : exn).
Arguments Return {A} a.
Arguments Throw {A} e.

Definition M (A : Type) : Type := Sys -> outcome A * Sys.

Definition ret {A} (a : A) : M A := fun s => (Return a, s).

Definition bind {A B} (m : M A) (k : A -> M B) : M B :=
  fun s => match m s with
           | (Return a, s') => k a s'
           | (Throw e, s') => (Throw e, s')
           end.

Definition throw {A} (e : exn) : M A := fun s => (Throw e, s).

Definition try_catch {A} (body : M A) (handler : exn -> M A) : M A :=
  fun s => match body s with
           | (Return a, s') => (Return a, s')
           | (Throw e, s') => handler e s'
           end.

#[global] Instance M_ret : MRet M := @ret.
#[global] Instance M_bind : MBind M := fun A B k m => bind m k.

Definition lift {A} (r : exn + A) : M A :=
  match r with
  | inl e => throw e
  | inr a => ret a
  end.

Definition field {A} (f : WebSocketHandler -> A) : M A :=
  fun s => (Return (f (this s)), s).

Definition assign (f : WebSocketHandler -> WebSocketHandler) : M unit :=
  fun s => (Return tt, {| this := f (this s); window := window s |}).

Definition log (e : event) (w : Window) : Window :=
  {| sockets := sockets w; timers := timers w; next_handle := next_handle w;
     next_socket := next_socket w; trace := e :: trace w |}.

(** ** Browser primitives *)

(** [window.setTimeout] / [window.setInterval]: a fresh non-zero handle. *)
Definition setTimer (kind : timer_kind) (cb : callback) (delay : Z) : M nat :=
  fun s =>
    let w := window s in
    let id := next_handle w in
    (Return id,
     {| this := this s;
        window := {| sockets := sockets w;
                     timers := <[id := {| t_kind := kind; t_callback := cb; t_delay := delay |}]> (timers w);
                     next_handle := S id;
                     next_socket := next_socket w;
                     trace := EvSetTimer id kind cb delay :: trace w |} |}).

(** [clearTimeout] / [clearInterval] (one handle pool). *)
Definition clearTimer (id : nat) : M unit :=
  fun s =>
    let w := window s in
    (Return tt,
     {| this := this s;
        window := {| sockets := sockets w;
                     timers := delete id (timers w);
                     next_handle := next_handle w;
                     next_socket := next_socket w;
                     trace := EvClearTimer id :: trace w |} |}).

(** [if (handle) { clear(handle); .. }]: handle [0] is falsy like [null]. *)
Definition handle_truthy (h : option nat) : option nat :=
  match h with
  | Some id => if Nat.eqb id 0 then None else Some id
  | None => None
  end.

(** [new WebSocket(url)]; [fails] says the constructor throws. *)
Definition new_WebSocket (fails : bool) : M nat :=
  fun s =>
    if fails then (Throw (DOMException "The URL is invalid"), s)
    else
      let w := window s in
      let k := next_socket w in
      (Return k,
       {| this := this s;
          window := {| sockets := <[k := {| readyState := CONNECTING; connectionTimeout := None |}]> (sockets w);
                       timers := timers w;
                       next_handle := next_handle w;
                       next_socket := S k;
                       trace := EvNewSocket k :: trace w |} |}).

(** [this.ws?.readyState] *)
Definition ws_readyState : M (option ready) :=
  fun s =>
    (Return (match ws (this s) with
             | Some k => readyState <$> sockets (window s) !! k
             | None => None
             end), s).

Definition is_OPEN (r : option ready) : bool :=
  match r with
  | Some OPEN => true
  | _ => false
  end.

(** [ws.close(..)]: starts the closing handshake of a live socket. *)
Definition closing (sock : WebSocket) : WebSocket :=
  match readyState sock with
  | CONNECTING | OPEN => {| readyState := CLOSING; connectionTimeout := connectionTimeout sock |}
  | _ => sock
  end.

Definition ws_close (k : nat) (code : option Z) : M unit :=
  fun s =>
    let w := window s in
    (Return tt,
     {| this := this s;
        window := {| sockets := alter closing k (sockets w);
                     timers := timers w;
                     next_handle := next_handle w;
                     next_socket := next_socket w;
                     trace := EvWsClose k code :: trace w |} |}).

(** [ws.send(text)] *)
Definition ws_send (k : nat) (frame : json) : M unit :=
  fun s => (Return tt, {| this := this s; window := log (EvWsSend k frame) (window s) |}).

(** [this.onError?.(e)] *)
Definition call_onError (e : exn) : M unit :=
  fun s =>
    if onError (this s)
    then (Return tt, {| this := this s; window := log (EvOnError e) (window s) |})
    else (Return tt, s).

(** [handler(message)] *)
Definition call_handler (h : MessageHandler) (message : json) : M unit :=
  fun s =>
    let s' := {| this := this s; window := log (EvHandler (h_id h) message) (window s) |} in
    match h_run h message with
    | Some e => (Throw e, s')
    | None => (Return tt, s')
    end.

(** Assigning [onopen], [onclose], [onerror], [onmessage]: the handlers of
    socket [k] close over the handle [t] of its connection timeout. *)
Definition assign_handlers (k t : nat) : M unit :=
  fun s =>
    let w := window s in
    (Return tt,
     {| this := this s;
        window := {| sockets := alter (fun sock => {| readyState := readyState sock;
                                                      connectionTimeout := Some t |}) k (sockets w);
                     timers := timers w;
                     next_handle := next_handle w;
                     next_socket := next_socket w;
                     trace := trace w |} |}).

(** ** The methods of [WebSocketHandler] *)

Definition ping_message : json := JObj [("type", JStr "ping")].

Definition join_message (room : string) : json :=
  JObj [("type", JStr "join"); ("roomId", JStr room)].

Definition exhausted : exn :=
  Error "Failed to establish WebSocket connection after maximum attempts".

(** private handleReconnect() *)
Definition handleReconnect : M unit :=
  rt ← field reconnectTimer ;
  match handle_truthy rt with
  | Some id => clearTimer id
  | None => ret tt
  end ;;
  count ← field retryCount ;
  max ← field maxRetries ;
  if (count <? max)%Z then
    assign (set_retryCount (count + 1)%Z) ;;
    delay ← field retryDelay ;
    id ← setTimer Timeout Reconnect delay ;
    assign (set_reconnectTimer (Some id)) ;;
    assign (set_retryDelay (Z.min (delay * 2) 10000))
  else
    call_onError exhausted.

(** public send(message: any) *)
Definition send (message : any) : M unit :=
  w ← field ws ;
  r ← ws_readyState ;
  match w with
  | Some k =>
      if is_OPEN r then
        try_catch
          (messageStr ← lift (JSON_stringify message) ;
           ws_send k messageStr)
          (fun error => call_onError error)
      else handleReconnect
  | None => handleReconnect
  end.

(** The callback handed to [window.setInterval] by [setupPing]. *)
Definition ping_tick : M unit :=
  r ← ws_readyState ;
  if is_OPEN r then
    try_catch (send (Plain ping_message)) (fun _ => ret tt)
  else ret tt.

(** private getWebSocketUrl(); the arguments are [window.location.protocol]
    and [window.location.host]. *)
Definition getWebSocketUrl (location_protocol location_host : string) : string :=
  let protocol := if String.eqb location_protocol "https:" then "wss:" else "ws:" in
  protocol ++ "//" ++ location_host ++ "/ws".

(** private setupPing() *)
Definition setupPing : M unit :=
  p ← field pingInterval ;
  match handle_truthy p with
  | Some id => clearTimer id
  | None => ret tt
  end ;;
  id ← setTimer Interval Ping 30000 ;
  assign (set_pingInterval (Some id)).

(** private connect(); [fails] is the outcome of [new WebSocket] should
    the call get that far. *)
Definition connect (fails : bool) : M unit :=
  try_catch
    (r ← ws_readyState ;
     if is_OPEN r then ret tt
     else
       w ← field ws ;
       match w with
       | Some k => ws_close k None ;; assign (set_ws None)
       | None => ret tt
       end ;;
       k ← new_WebSocket fails ;
       assign (set_ws (Some k)) ;;
       t ← setTimer Timeout ConnectionTimeout 5000 ;
       assign_handlers k t)
    (fun error => call_onError error ;; handleReconnect).

(** The callback of the connection timeout armed by [connect]. *)
Definition connectionTimeout_tick : M unit :=
  r ← ws_readyState ;
  if negb (is_OPEN r) then
    w ← field ws ;
    match w with
    | Some k => ws_close k None
    | None => ret tt
    end ;;
    handleReconnect
  else ret tt.

(** The callback of the reconnect timer armed by [handleReconnect]. *)
Definition reconnect_tick (fails : bool) : M unit :=
  assign (set_reconnectTimer None) ;;
  connect fails.

(** this.ws.onopen; [t] is the captured [connectionTimeout]. *)
Definition ws_onopen (t : nat) : M unit :=
  clearTimer t ;;
  assign (set_isConnected true) ;;
  assign (set_retryCount 0) ;;
  assign (set_retryDelay 1000) ;;
  setupPing ;;
  room ← field roomId ;
  send (Plain (join_message room)).

(** this.ws.onclose *)
Definition ws_onclose (t : nat) : M unit :=
  clearTimer t ;;
  p ← field pingInterval ;
  match handle_truthy p with
  | Some id => clearTimer id ;; assign (set_pingInterval None)
  | None => ret tt
  end ;;
  assign (set_isConnected false) ;;
  handleReconnect.

(** this.ws.onerror *)
Definition ws_onerror : M unit :=
  call_onError (Error "WebSocket connection error").

(** public onMessage(type, handler) *)
Definition onMessage (type : string) (handler : MessageHandler) : M unit :=
  assign (fun o => set_messageHandlers (<[type := handler]> (messageHandlers o)) o).

(** [this.messageHandlers.get(message.type)]: the keys of the map are
    strings, so only a string tag can hit. *)
Definition get_handler (tag : jsvalue) : M (option MessageHandler) :=
  fun s =>
    (Return (match tag with
             | Some (JStr t) => messageHandlers (this s) !! t
             | _ => None
             end), s).

(** public close() *)
Definition close : M unit :=
  rt ← field reconnectTimer ;
  match handle_truthy rt with
  | Some id => clearTimer id ;; assign (set_reconnectTimer None)
  | None => ret tt
  end ;;
  p ← field pingInterval ;
  match handle_truthy p with
  | Some id => clearTimer id ;; assign (set_pingInterval None)
  | None => ret tt
  end ;;
  w ← field ws ;
  match w with
  | Some k =>
      max ← field maxRetries ;
      assign (set_retryCount max) ;;
      r ← ws_readyState ;
      (if is_OPEN r then ws_close k (Some 1000%Z) else ret tt) ;;
      assign (set_ws None)
  | None => ret tt
  end ;;
  assign (set_isConnected false) ;;
  assign (set_messageHandlers ∅).

Section WithParser.

(** [JSON.parse], the browser's: [None] when it throws a [SyntaxError]. *)
Variable JSON_parse : string -> option json.

(** this.ws.onmessage *)
Definition ws_onmessage (data : string) : M unit :=
  try_catch
    (message ← match JSON_parse data with
                | Some v => ret v
                | None => throw (SyntaxError data)
                end ;
     err ← lift (get_property message "error") ;
     if truthy err then
       call_onError (Error_of err)
     else
       tag ← lift (get_property message "type") ;
       handler ← get_handler tag ;
       match handler with
       | Some h => call_handler h message
       | None => ret tt
       end)
    (fun error => call_onError error).

(** ** The event loop: what the consumer and the browser can do *)

Inductive input : Type :=
| Call_send (message : any)
| Call_onMessage (type : string) (handler : MessageHandler)
| Call_close
| Ws_open (k : nat)                      (* the handshake of socket k succeeds *)
| Ws_closing (k : nat)                   (* the peer starts the closing handshake *)
| Ws_close (k : nat)                     (* close event of socket k *)
| Ws_error (k : nat)                     (* error event of socket k *)
| Ws_message (k : nat) (data : string)   (* a frame arrives on socket k *)
| Timer_fire (id : nat) (fails : bool).  (* a pending timer runs its callback *)

Definition set_ready (k : nat) (r : ready) (s : Sys) : Sys :=
  let w := window s in
  {| this := this s;
     window := {| sockets := alter (fun sock => {| readyState := r;
                                                   connectionTimeout := connectionTimeout sock |}) k (sockets w);
                  timers := timers w;
                  next_handle := next_handle w;
                  next_socket := next_socket w;
                  trace := trace w |} |}.

Definition expire (id : nat) (s : Sys) : Sys :=
  let w := window s in
  {| this := this s;
     window := {| sockets := sockets w;
                  timers := delete id (timers w);
                  next_handle := next_handle w;
                  next_socket := next_socket w;
                  trace := trace w |} |}.

Definition run_callback (cb : callback) (fails : bool) : M unit :=
  match cb with
  | ConnectionTimeout => connectionTimeout_tick
  | Reconnect => reconnect_tick fails
  | Ping => ping_tick
  end.

(** One turn of the event loop; [None] when the browser cannot deliver the
    event in this state (no such socket or timer, wrong [readyState], or a
    socket whose handlers were never assigned). *)
Definition deliver (i : input) (s : Sys) : option (outcome unit * Sys) :=
  match i with
  | Call_send message => Some (send message s)
  | Call_onMessage type handler => Some (onMessage type handler s)
  | Call_close => Some (close s)
  | Ws_open k =>
      match sockets (window s) !! k with
      | Some {| readyState := CONNECTING; connectionTimeout := Some t |} =>
          Some (ws_onopen t (set_ready k OPEN s))
      | _ => None
      end
  | Ws_closing k =>
      match sockets (window s) !! k with
      | Some {| readyState := OPEN; connectionTimeout := Some t |} =>
          Some (Return tt, set_ready k CLOSING s)
      | _ => None
      end
  | Ws_close k =>
      match sockets (window s) !! k with
      | Some {| readyState := CLOSED |} => None
      | Some {| readyState := _; connectionTimeout := Some t |} =>
          Some (ws_onclose t (set_ready k CLOSED s))
      | _ => None
      end
  | Ws_error k =>
      match sockets (window s) !! k with
      | Some {| readyState := CLOSED |} => None
      | Some {| readyState := _; connectionTimeout := Some t |} => Some (ws_onerror s)
      | _ => None
      end
  | Ws_message k data =>
      match sockets (window s) !! k with
      | Some {| readyState := OPEN; connectionTimeout := Some t |} => Some (ws_onmessage data s)
      | _ => None
      end
  | Timer_fire id fails =>
      match timers (window s) !! id with
      | Some tm =>
          Some (run_callback (t_callback tm) fails
                  (match t_kind tm with
                   | Timeout => expire id s
                   | Interval => s
                   end))
      | None => None
      end
  end.

Definition step (i : input) (s : Sys) : option Sys :=
  snd <$> deliver i s.

Fixpoint run (inputs : list input) (s : Sys) : option Sys :=
  match inputs with
  | [] => Some s
  | i :: rest =>
      match step i s with
      | Some s' => run rest s'
      | None => None
      end
  end.

End WithParser.

(** constructor(roomId, onError?) *)
Definition initial (room : string) (sink : bool) : Sys :=
  {| this := {| ws := None; messageHandlers := ∅; isConnected := false;
                reconnectTimer := None; maxRetries := 3; retryCount := 0;
                retryDelay := 1000; pingInterval := None;
                roomId := room; onError := sink |};
     window := {| sockets := ∅; timers := ∅; next_handle := 1; next_socket := 1;
                  trace := [] |} |}.

Definition construct (room : string) (sink : bool) (fails : bool) : outcome unit * Sys :=
  connect fails (initial room sink).


(** ** Sample inputs *)

(** A parser for the frames used in the examples below; each frame text is
    named by what it parses to. *)
Definition sample_parse (data : string) : option json :=
  if String.eqb data "chat hi" then
    Some (JObj [("type", JStr "chat"); ("text", JStr "hi")])
  else if String.eqb data "chat with empty error" then
    Some (JObj [("type", JStr "chat"); ("error", JStr "")])
  else if String.eqb data "chat with error boom" then
    Some (JObj [("type", JStr "chat"); ("error", JStr "boom")])
  else if String.eqb data "unknown" then
    Some (JObj [("type", JStr "unknown")])
  else None.

(** A handler that returns, and one that throws. *)
Definition quiet_handler : MessageHandler :=
  {| h_id := 7; h_run := fun _ => None |}.

Definition throwing_handler : MessageHandler :=
  {| h_id := 8; h_run := fun _ => Some (Thrown (JStr "oops")) |}.

(** A manager just constructed, its first socket still connecting. *)
Definition sample_connecting : Sys := snd (construct "room" true false).

(** The same once the socket has opened. *)
Definition sample_open : Sys :=
  default sample_connecting (step sample_parse (Ws_open 1) sample_connecting).

(** The manager after its first socket failed and the reconnect timer
    fired: socket 2 is connecting. *)
Definition sample_reconnecting : Sys :=
  default sample_connecting
    (run sample_parse [Ws_close 1; Timer_fire 2 false] sample_connecting).

(** The manager after its first socket failed: reconnect timer 2 pending. *)
Definition sample_waiting : Sys :=
  default sample_connecting (run sample_parse [Ws_close 1] sample_connecting).

(** The open manager with a handler registered for "chat". *)
Definition sample_chat (handler : MessageHandler) : Sys :=
  snd (onMessage "chat" handler sample_open).

(** ** Reachable states *)

(** States reached from a fresh manager through inputs satisfying
    [allowed]. *)
Inductive reachable_via (JSON_parse : string -> option json) (allowed : input -> Prop)
  : Sys -> Prop :=
| reach_construct room sink fails :
    reachable_via JSON_parse allowed (snd (construct room sink fails))
| reach_step s i s' :
    reachable_via JSON_parse allowed s ->
    allowed i ->
    step JSON_parse i s = Some s' ->
    reachable_via JSON_parse allowed s'.

(** Everything the consumer and the browser can do. *)
Definition reachable (JSON_parse : string -> option json) : Sys -> Prop :=
  reachable_via JSON_parse (fun _ => True).

(** Disconnect/reconnect cycles: everything but the teardown [close()]. *)
Definition cycling (JSON_parse : string -> option json) : Sys -> Prop :=
  reachable_via JSON_parse (fun i => i <> Call_close).

(** The reconnect timers that are pending. *)
Definition pending_reconnect (s : Sys) (id : nat) : Prop :=
  exists t, timers (window s) !! id = Some t /\ t_callback t = Reconnect.

(** The heartbeat intervals that are pending. *)
Definition pending_ping (s : Sys) (id : nat) : Prop :=
  exists t, timers (window s) !! id = Some t /\ t_callback t = Ping.

(** The frames handed to [ws.send], most recent first. *)
Fixpoint frames (tr : list event) : list (nat * json) :=
  match tr with
  | [] => []
  | EvWsSend k f :: rest => (k, f) :: frames rest
  | _ :: rest => frames rest
  end.

(** The timers armed, most recent first. *)
Fixpoint armed (tr : list event) : list (nat * timer) :=
  match tr with
  | [] => []
  | EvSetTimer id kind cb delay :: rest =>
      (id, {| t_kind := kind; t_callback := cb; t_delay := delay |}) :: armed rest
  | _ :: rest => armed rest
  end.

(** The delays of the reconnect timers armed, most recent first. *)
Definition reconnect_delays (tr : list event) : list Z :=
  omap (fun '(_, t) => match t_callback t with
                       | Reconnect => Some (t_delay t)
                       | _ => None
                       end) (armed tr).

(** The errors handed to the sink, most recent first. *)
Fixpoint reported (tr : list event) : list exn :=
  match tr with
  | [] => []
  | EvOnError e :: rest => e :: reported rest
  | _ :: rest => reported rest
  end.

(** The handler invocations, most recent first. *)
Fixpoint handler_calls (tr : list event) : list (nat * json) :=
  match tr with
  | [] => []
  | EvHandler h payload :: rest => (h, payload) :: handler_calls rest
  | _ :: rest => handler_calls rest
  end.

(** [message.type] of a message whose properties can be read. *)
Definition type_tag (message : json) : jsvalue :=
  match get_property message "type" with
  | inr tag => tag
  | inl _ => None
  end.

(** The handler [this.messageHandlers.get(tag)] finds. *)
Definition handler_for (s : Sys) (tag : jsvalue) : option MessageHandler :=
  match tag with
  | Some (JStr t) => messageHandlers (this s) !! t
  | _ => None
  end.

(** The state after [this.onError?.(e)]. *)
Definition told (e : exn) (s : Sys) : Sys :=
  if onError (this s)
  then {| this := this s; window := log (EvOnError e) (window s) |}
  else s.

(** The calls of [ws.close], most recent first. *)
Fixpoint close_calls (tr : list event) : list (nat * option Z) :=
  match tr with
  | [] => []
  | EvWsClose k code :: rest => (k, code) :: close_calls rest
  | _ :: rest => close_calls rest
  end.

(** The sockets created, most recent first. *)
Fixpoint created (tr : list event) : list nat :=
  match tr with
  | [] => []
  | EvNewSocket k :: rest => k :: created rest
  | _ :: rest => created rest
  end.

(** A transport event that arrives after the teardown: the close or the
    error event of some socket. *)
Definition late_event (i : input) : Prop :=
  exists k, i = Ws_close k \/ i = Ws_error k.

(** The retry budget is spent. *)
Definition spent (s : Sys) : Prop :=
  (retryCount (this s) <? maxRetries (this s))%Z = false.

(** What the code tests before transmitting. *)
Definition is_open (s : Sys) : bool :=
  match ws (this s) with
  | Some k => is_OPEN (readyState <$> sockets (window s) !! k)
  | None => false
  end.

(** The invariant behind the single reconnect timer: handles are positive
    and below the next one to be issued, and a pending reconnect timer is a
    one-shot timer whose handle the manager holds in [reconnectTimer]. *)
Definition timers_inv (rt : option nat) (tms : gmap nat timer) (nh : nat) : Prop :=
  0 < nh /\
  (forall id, rt = Some id -> 0 < id < nh) /\
  (forall id t, tms !! id = Some t -> t_callback t = Reconnect ->
                rt = Some id /\ t_kind t = Timeout).

Definition timers_ok (s : Sys) : Prop :=
  timers_inv (reconnectTimer (this s)) (timers (window s)) (next_handle (window s)).

(** The invariant behind the join announcement: a socket that is still
    connecting is the manager's current transport, frames have only been
    handed to sockets that had left [CONNECTING], and socket ids are below
    the next one to be issued. *)
Definition link_inv (w : option nat) (socks : gmap nat WebSocket) (ns : nat)
    (fs : list (nat * json)) : Prop :=
  (forall k sock, socks !! k = Some sock -> readyState sock = CONNECTING -> w = Some k) /\
  (forall k f, In (k, f) fs ->
               exists sock, socks !! k = Some sock /\ readyState sock <> CONNECTING) /\
  (forall k sock, socks !! k = Some sock -> k < ns).

Definition link_ok (s : Sys) : Prop :=
  link_inv (ws (this s)) (sockets (window s)) (next_socket (window s))
    (frames (trace (window s))).

(** ** Further invariants and sample states *)

(** The retry state of a reachable manager: three attempts at most, and a
    delay that has doubled at most once per attempt counted. *)
Definition retry_inv (count delay max : Z) : Prop :=
  max = 3%Z /\ (0 <= count <= 3)%Z /\
  (delay = 1000%Z \/ (delay = 2000%Z /\ 1 <= count)%Z \/
   (delay = 4000%Z /\ 2 <= count)%Z \/ (delay = 8000%Z /\ 3 <= count)%Z).

(** The delays a reconnect timer is ever armed with. *)
Definition backoff_delay (d : Z) : Prop :=
  d = 1000%Z \/ d = 2000%Z \/ d = 4000%Z.

Definition retry_ok (s : Sys) : Prop :=
  retry_inv (retryCount (this s)) (retryDelay (this s)) (maxRetries (this s)) /\
  Forall backoff_delay (reconnect_delays (trace (window s))).

(** A socket that is connecting or open. *)
Definition live (sock : WebSocket) : Prop :=
  readyState sock = CONNECTING \/ readyState sock = OPEN.

(** Every live socket is the manager's transport. *)
Definition live_inv (w : option nat) (socks : gmap nat WebSocket) : Prop :=
  forall k sock, socks !! k = Some sock -> live sock -> w = Some k.

Definition live_ok (s : Sys) : Prop :=
  live_inv (ws (this s)) (sockets (window s)).

(** A pending heartbeat interval is the one held in [pingInterval], and
    handles are positive. *)
Definition ping_inv (p : option nat) (tms : gmap nat timer) (nh : nat) : Prop :=
  0 < nh /\
  (forall id, p = Some id -> 0 < id) /\
  (forall id t, tms !! id = Some t -> t_callback t = Ping -> p = Some id).

Definition ping_ok (s : Sys) : Prop :=
  ping_inv (pingInterval (this s)) (timers (window s)) (next_handle (window s)).

(** Inputs other than the open event of a socket. *)
Definition not_open_event (i : input) : Prop := forall k, i <> Ws_open k.

(** Inputs other than a call of [onMessage]. *)
Definition not_registration (i : input) : Prop := forall ty h, i <> Call_onMessage ty h.

(** The timer [connect] arms for each attempt. *)
Definition connection_timeout : timer :=
  {| t_kind := Timeout; t_callback := ConnectionTimeout; t_delay := 5000 |}.

(** The fresh manager after its connection timeout fired. *)
Definition sample_timed_out : Sys :=
  default sample_connecting (step sample_parse (Timer_fire 1 false) sample_connecting).

(** The open manager after [close()]. *)
Definition sample_closed : Sys := snd (close sample_open).

(** * Proofs *)

Ltac unfold_monad :=
  unfold lift, mbind, mret, M_bind, M_ret, bind, ret, throw, try_catch, field, assign,
     setTimer, clearTimer, new_WebSocket, ws_readyState, ws_close, ws_send,
     call_onError, call_handler, assign_handlers, set_ready, expire, log,
     set_ws, set_messageHandlers, set_isConnected, set_reconnectTimer,
     set_retryCount, set_retryDelay, set_pingInterval in *.

Ltac destruct_sys s :=
  destruct s as [[w h c rt mx cnt dl p room sink] [socks tms nh ns tr]].

(** Case analysis on an innermost stuck test of the goal. *)
Ltac case_inner :=
  match goal with
  | |- context [ match ?x with _ => _ end ] =>
      lazymatch x with
      | context [ match _ with _ => _ end ] => fail
      | _ => destruct x eqn:?
      end
  end.

Ltac branches := repeat (cbn in *; case_inner); cbn in *.

(** ** Runs *)

Lemma reachable_via_run parse allowed inputs : forall s s',
  reachable_via parse allowed s -> Forall allowed inputs ->
  run parse inputs s = Some s' -> reachable_via parse allowed s'.
Proof.
  induction inputs as [|i inputs IH]; intros s s' Hs Hall; cbn.
  - by intros [= <-].
  - apply Forall_cons in Hall as [Hi Hall].
    destruct (step parse i s) as [s1|] eqn:Hstep; [|done].
    apply IH; [|done]. by eapply reach_step.
Qed.

(** ** Timers *)

Lemma handle_truthy_Some h id : handle_truthy h = Some id -> h = Some id /\ id <> 0.
Proof.
  destruct h as [n|]; cbn; [|done].
  destruct (Nat.eqb_spec n 0); naive_solver.
Qed.

Lemma handle_truthy_None h : handle_truthy h = None -> h = None \/ h = Some 0.
Proof.
  destruct h as [n|]; cbn; [|auto].
  destruct (Nat.eqb_spec n 0); naive_solver.
Qed.

Lemma timers_inv_delete rt tms nh id :
  timers_inv rt tms nh -> timers_inv rt (delete id tms) nh.
Proof.
  intros (Hpos & Hfresh & Hown). split; [done|split; [done|]].
  intros i t Hl. apply lookup_delete_Some in Hl as [_ Hl]. eauto.
Qed.

Lemma timers_inv_insert rt tms nh kind cb d :
  cb <> Reconnect ->
  timers_inv rt tms nh ->
  timers_inv rt (<[nh := {| t_kind := kind; t_callback := cb; t_delay := d |}]> tms) (S nh).
Proof.
  intros Hcb (Hpos & Hfresh & Hown). split; [lia|split].
  - intros i Hi. specialize (Hfresh i Hi). lia.
  - intros i t Hl. apply lookup_insert_Some in Hl as [[_ <-]|[_ Hl]]; cbn; [done|eauto].
Qed.

(** Once the handle the manager holds is cleared (or when it holds none),
    no reconnect timer is pending. *)
Lemma timers_inv_cleared rt tms nh i t :
  timers_inv rt tms nh -> handle_truthy rt = None ->
  tms !! i = Some t -> t_callback t <> Reconnect.
Proof.
  intros (Hpos & Hfresh & Hown) Hrt Hl Hc.
  apply handle_truthy_None in Hrt as [->| ->].
  - by destruct (Hown _ _ Hl Hc).
  - specialize (Hfresh 0 eq_refl). lia.
Qed.

Lemma timers_inv_rearm rt tms nh old d :
  timers_inv rt tms nh -> handle_truthy rt = Some old ->
  timers_inv (Some nh)
    (<[nh := {| t_kind := Timeout; t_callback := Reconnect; t_delay := d |}]> (delete old tms)) (S nh).
Proof.
  intros (Hpos & Hfresh & Hown) Hrt. apply handle_truthy_Some in Hrt as [-> _].
  split; [lia|split].
  - intros i [= <-]. lia.
  - intros i t Hl Hc. apply lookup_insert_Some in Hl as [[-> <-]|[_ Hl]]; [done|].
    apply lookup_delete_Some in Hl as [Hne Hl].
    destruct (Hown _ _ Hl Hc). congruence.
Qed.

Lemma timers_inv_arm rt tms nh d :
  timers_inv rt tms nh -> handle_truthy rt = None ->
  timers_inv (Some nh)
    (<[nh := {| t_kind := Timeout; t_callback := Reconnect; t_delay := d |}]> tms) (S nh).
Proof.
  intros Hinv Hrt. pose proof Hinv as (Hpos & Hfresh & Hown). split; [lia|split].
  - intros i [= <-]. lia.
  - intros i t Hl Hc. apply lookup_insert_Some in Hl as [[-> <-]|[_ Hl]]; [done|].
    by destruct (timers_inv_cleared _ _ _ _ _ Hinv Hrt Hl).
Qed.

Lemma timers_inv_disarm rt tms nh i :
  timers_inv rt tms nh -> rt = Some i ->
  timers_inv None (delete i tms) nh.
Proof.
  intros (Hpos & Hfresh & Hown) ->. split; [done|split; [done|]].
  intros j t Hl Hc. apply lookup_delete_Some in Hl as [Hne Hl].
  destruct (Hown _ _ Hl Hc). congruence.
Qed.

Lemma timers_inv_cancel rt tms nh i :
  timers_inv rt tms nh -> handle_truthy rt = Some i ->
  timers_inv None (delete i tms) nh.
Proof.
  intros Hinv [-> _]%handle_truthy_Some. by eapply timers_inv_disarm.
Qed.

Lemma timers_inv_forget rt tms nh :
  timers_inv rt tms nh -> handle_truthy rt = None ->
  timers_inv None tms nh.
Proof.
  intros Hinv Hrt. pose proof Hinv as (Hpos & Hfresh & Hown). split; [done|split; [done|]].
  intros j t Hl Hc. by destruct (timers_inv_cleared _ _ _ _ _ Hinv Hrt Hl).
Qed.

Create HintDb timers.
#[local] Hint Resolve timers_inv_delete timers_inv_insert timers_inv_rearm
  timers_inv_arm timers_inv_cancel timers_inv_forget : timers.
#[local] Hint Extern 1 (_ <> Reconnect) => discriminate : timers.

Lemma handleReconnect_timers_ok s :
  timers_ok s -> timers_ok (snd (handleReconnect s)).
Proof.
  destruct_sys s. unfold timers_ok, handleReconnect. unfold_monad.
  intros Hinv. branches; eauto with timers.
Qed.

Ltac unfold_methods :=
  unfold ws_onopen, ws_onclose, ws_onerror, ws_onmessage, onMessage, get_handler, close,
    reconnect_tick, connectionTimeout_tick, connect, ping_tick, setupPing, send,
    handleReconnect in *.

Ltac run_method := unfold_methods; unfold_monad; branches.

Lemma send_timers_ok message s :
  timers_ok s -> timers_ok (snd (send message s)).
Proof.
  destruct_sys s. unfold timers_ok. intros Hinv. run_method; eauto with timers.
Qed.

Lemma setupPing_timers_ok s :
  timers_ok s -> timers_ok (snd (setupPing s)).
Proof.
  destruct_sys s. unfold timers_ok. intros Hinv. run_method; eauto with timers.
Qed.

Lemma ping_tick_timers_ok s :
  timers_ok s -> timers_ok (snd (ping_tick s)).
Proof.
  destruct_sys s. unfold timers_ok. intros Hinv. run_method; eauto with timers.
Qed.

Lemma connect_timers_ok fails s :
  timers_ok s -> timers_ok (snd (connect fails s)).
Proof.
  destruct_sys s. unfold timers_ok. intros Hinv. run_method; eauto with timers.
Qed.

Lemma connectionTimeout_tick_timers_ok s :
  timers_ok s -> timers_ok (snd (connectionTimeout_tick s)).
Proof.
  destruct_sys s. unfold timers_ok. intros Hinv. run_method; eauto with timers.
Qed.

Lemma ws_onopen_timers_ok t s :
  timers_ok s -> timers_ok (snd (ws_onopen t s)).
Proof.
  destruct_sys s. unfold timers_ok. intros Hinv. run_method; eauto 8 with timers.
Qed.

Lemma ws_onclose_timers_ok t s :
  timers_ok s -> timers_ok (snd (ws_onclose t s)).
Proof.
  destruct_sys s. unfold timers_ok. intros Hinv. run_method; eauto 8 with timers.
Qed.

Lemma ws_onmessage_timers_ok parse data s :
  timers_ok s -> timers_ok (snd (ws_onmessage parse data s)).
Proof.
  destruct_sys s. unfold timers_ok. intros Hinv. run_method; eauto with timers.
Qed.

Lemma close_timers_ok s :
  timers_ok s -> timers_ok (snd (close s)).
Proof.
  destruct_sys s. unfold timers_ok. intros Hinv. run_method; eauto 8 with timers.
Qed.


Lemma reconnect_tick_timers_ok fails id tm s :
  timers_ok s -> timers (window s) !! id = Some tm -> t_callback tm = Reconnect ->
  timers_ok (snd (reconnect_tick fails (expire id s))).
Proof.
  intros Hinv Hl Hc.
  assert (Hd : timers_ok (snd (assign (set_reconnectTimer None) (expire id s)))).
  { destruct Hinv as (Hpos & Hfresh & Hown). destruct (Hown _ _ Hl Hc) as [Hrt _].
    unfold timers_ok. cbn. eapply timers_inv_disarm; [|exact Hrt]. by split. }
  unfold reconnect_tick. unfold mbind, M_bind, bind. cbn.
  by apply connect_timers_ok.
Qed.

Lemma expire_timers_ok id s : timers_ok s -> timers_ok (expire id s).
Proof. unfold timers_ok. cbn. apply timers_inv_delete. Qed.

Lemma run_callback_timers_ok fails id tm s :
  timers_ok s -> timers (window s) !! id = Some tm ->
  timers_ok (snd (run_callback (t_callback tm) fails
                    (match t_kind tm with Timeout => expire id s | Interval => s end))).
Proof.
  intros Hinv Hl. destruct (t_callback tm) eqn:Hc; cbn.
  - apply connectionTimeout_tick_timers_ok. destruct (t_kind tm); auto using expire_timers_ok.
  - destruct Hinv as (Hpos & Hfresh & Hown). destruct (Hown _ _ Hl Hc) as [_ ->].
    eapply reconnect_tick_timers_ok; eauto. by split.
  - apply ping_tick_timers_ok. destruct (t_kind tm); auto using expire_timers_ok.
Qed.

Lemma step_timers_ok parse i s s' :
  timers_ok s -> step parse i s = Some s' -> timers_ok s'.
Proof.
  intros Hinv. unfold step, deliver.
  destruct i; cbn; intros Hs.
  9: { destruct (timers (window s) !! id) eqn:Hl; simplify_eq/=.
       by apply run_callback_timers_ok. }
  all: repeat case_match; simplify_eq/=;
    eauto using send_timers_ok, close_timers_ok, ws_onmessage_timers_ok.
  - by apply (ws_onopen_timers_ok _ (set_ready k OPEN s)).
  - by apply (ws_onclose_timers_ok _ (set_ready k CLOSED s)).
  - by apply (ws_onclose_timers_ok _ (set_ready k CLOSED s)).
  - by apply (ws_onclose_timers_ok _ (set_ready k CLOSED s)).
  - destruct_sys s. unfold timers_ok in *. by run_method.
  - destruct_sys s. unfold timers_ok in *. by run_method.
  - destruct_sys s. unfold timers_ok in *. by run_method.
Qed.

Lemma initial_timers_ok room sink : timers_ok (initial room sink).
Proof.
  unfold timers_ok, timers_inv. cbn. split; [lia|split]; [done|].
  intros id t Hl. by rewrite lookup_empty in Hl.
Qed.

Lemma reachable_timers_ok parse s : reachable parse s -> timers_ok s.
Proof.
  induction 1 as [room sink fails|s i s' _ IH _ Hstep].
  - apply connect_timers_ok, initial_timers_ok.
  - eauto using step_timers_ok.
Qed.

(** ** The single reconnect timer *)

Lemma handleReconnect_cancels s old :
  timers_ok s -> pending_reconnect s old ->
  reconnectTimer (this s) = Some old /\
  ~ pending_reconnect (snd (handleReconnect s)) old /\
  exists later,
    trace (window (snd (handleReconnect s)))
    = (later ++ EvClearTimer old :: trace (window s))%list.
Proof.
  destruct_sys s. unfold timers_ok, pending_reconnect. cbn.
  intros (Hpos & Hfresh & Hown) (tm & Hl & Hc).
  destruct (Hown _ _ Hl Hc) as [-> _]. specialize (Hfresh _ eq_refl).
  split; [done|].
  unfold handleReconnect. unfold_monad. cbn.
  destruct (Nat.eqb_spec old 0) as [->|_]; [lia|]. cbn.
  destruct (cnt <? mx)%Z; [|destruct sink]; cbn.
  - split; [|by eexists [_]].
    intros (tm' & Hl' & _). rewrite lookup_insert_ne in Hl' by lia.
    by rewrite lookup_delete_eq in Hl'.
  - split; [|by eexists [_]].
    intros (tm' & Hl' & _). by rewrite lookup_delete_eq in Hl'.
  - split; [|by exists []].
    intros (tm' & Hl' & _). by rewrite lookup_delete_eq in Hl'.
Qed.

(** C4.  In every reachable state at most one reconnect timer is pending,
    and it is the one whose handle the manager holds.  When the retry
    scheduler is invoked while such a timer is pending, clearing that timer
    is the first thing it does: whatever it arms or reports comes after, the
    old timer is no longer pending afterwards, and still at most one
    reconnect timer is. *)
Theorem single_reconnect_timer (parse : string -> option json) (s : Sys) :
  reachable parse s ->
  (forall i j, pending_reconnect s i -> pending_reconnect s j -> i = j) /\
  (forall old, pending_reconnect s old ->
     reconnectTimer (this s) = Some old /\
     ~ pending_reconnect (snd (handleReconnect s)) old /\
     exists later,
       trace (window (snd (handleReconnect s)))
       = (later ++ EvClearTimer old :: trace (window s))%list) /\
  (forall i j, pending_reconnect (snd (handleReconnect s)) i ->
               pending_reconnect (snd (handleReconnect s)) j -> i = j).
Proof.
  intros Hr. pose proof (reachable_timers_ok _ _ Hr) as Hok.
  assert (Huniq : forall x, timers_ok x ->
            forall i j, pending_reconnect x i -> pending_reconnect x j -> i = j).
  { intros x (_ & _ & Hown) i j (ti & Hi & Hci) (tj & Hj & Hcj).
    destruct (Hown _ _ Hi Hci) as [Hi' _]. destruct (Hown _ _ Hj Hcj) as [Hj' _].
    congruence. }
  split; [by apply Huniq|]. split.
  - intros old. by apply handleReconnect_cancels.
  - apply Huniq. by apply handleReconnect_timers_ok.
Qed.

(** A second failure while reconnect timer 2 is pending: the timer is
    cleared and timer 3 takes its place. *)
Lemma single_reconnect_timer_witness :
  pending_reconnect sample_waiting 2 /\
  ~ pending_reconnect (snd (handleReconnect sample_waiting)) 2 /\
  pending_reconnect (snd (handleReconnect sample_waiting)) 3 /\
  forall i, pending_reconnect (snd (handleReconnect sample_waiting)) i -> i = 3.
Proof.
  assert (Hr : reachable sample_parse sample_waiting).
  { apply (reachable_via_run _ _ [Ws_close 1] sample_connecting).
    - apply reach_construct.
    - repeat constructor.
    - vm_compute. reflexivity. }
  assert (H2 : pending_reconnect sample_waiting 2)
    by (eexists; split; vm_compute; reflexivity).
  assert (H3 : pending_reconnect (snd (handleReconnect sample_waiting)) 3)
    by (eexists; split; vm_compute; reflexivity).
  destruct (single_reconnect_timer sample_parse sample_waiting Hr)
    as (_ & Hcancel & Huniq).
  destruct (Hcancel 2 H2) as (_ & Hgone & _).
  split; [exact H2|]. split; [exact Hgone|]. split; [exact H3|].
  intros i Hi. exact (Huniq i 3 Hi H3).
Defined.

(** ** Teardown *)

Lemma close_returns s : fst (close s) = Return tt.
Proof. destruct_sys s. by run_method. Qed.

Lemma close_cancels_reconnect s id :
  handle_truthy (reconnectTimer (this s)) = Some id ->
  timers (window (snd (close s))) !! id = None.
Proof.
  destruct_sys s. cbn. intros Hrt. run_method; simplify_eq.
  all: rewrite !lookup_delete_None; auto.
Qed.

Lemma close_cancels_ping s id :
  handle_truthy (pingInterval (this s)) = Some id ->
  timers (window (snd (close s))) !! id = None.
Proof.
  destruct_sys s. cbn. intros Hp. run_method; simplify_eq.
  all: rewrite !lookup_delete_None; auto.
Qed.

Lemma close_fields s :
  let s' := snd (close s) in
  handle_truthy (reconnectTimer (this s')) = None /\
  handle_truthy (pingInterval (this s')) = None /\
  ws (this s') = None /\ isConnected (this s') = false /\
  messageHandlers (this s') = ∅ /\
  armed (trace (window s')) = armed (trace (window s)) /\
  created (trace (window s')) = created (trace (window s)).
Proof. destruct_sys s. by run_method. Qed.

Lemma close_again s : close (snd (close s)) = (Return tt, snd (close s)).
Proof.
  destruct_sys s. run_method; simplify_eq; try done.
Qed.

Lemma is_OPEN_lookup (socks : gmap nat WebSocket) k :
  is_OPEN (readyState <$> socks !! k) = true ->
  exists sock, socks !! k = Some sock /\ readyState sock = OPEN.
Proof.
  destruct (socks !! k) as [sock|]; cbn; [|done].
  destruct (readyState sock) eqn:Hr; try done. eauto.
Qed.

Lemma close_holding s k :
  ws (this s) = Some k ->
  let s' := snd (close s) in
  retryCount (this s') = maxRetries (this s') /\
  maxRetries (this s') = maxRetries (this s) /\
  (is_open s = true ->
   close_calls (trace (window s')) = (k, Some 1000%Z) :: close_calls (trace (window s)) /\
   readyState <$> sockets (window s') !! k = Some CLOSING) /\
  (is_open s = false ->
   close_calls (trace (window s')) = close_calls (trace (window s)) /\
   sockets (window s') = sockets (window s)).
Proof.
  destruct_sys s. unfold is_open. cbn. intros ->.
  run_method; (split; [done|split; [done|]]); split; intros Ho; try congruence;
    (split; [done|]); try done.
  all: match goal with
       | H : is_OPEN _ = true |- _ => apply is_OPEN_lookup in H as (sock & Hl & Hr)
       end;
    rewrite lookup_alter_eq, Hl; cbn; unfold closing; by rewrite Hr.
Qed.

(** After the budget is spent, a close or error event of any socket arms
    no timer, creates no socket and leaves the budget spent. *)
Lemma late_step parse i s s' :
  late_event i -> spent s -> step parse i s = Some s' ->
  spent s' /\
  armed (trace (window s')) = armed (trace (window s)) /\
  created (trace (window s')) = created (trace (window s)) /\
  next_handle (window s') = next_handle (window s) /\
  ws (this s') = ws (this s) /\
  timers (window s') ⊆ timers (window s).
Proof.
  intros [k [->| ->]]; destruct_sys s; unfold spent, step, deliver; cbn; intros Hsp Hs.
  - destruct (socks !! k) as [[r ct]|]; [|done].
    destruct ct as [t|]; [|by destruct r].
    destruct r; try done; cbn in Hs; injection Hs as <-.
    all: run_method; try congruence; repeat split; try done.
    all: repeat (etrans; [apply delete_subseteq|]); done.
  - destruct (socks !! k) as [[r ct]|]; [|done].
    destruct ct as [t|]; [|by destruct r].
    destruct r; try done; cbn in Hs; injection Hs as <-.
    all: by run_method.
Qed.

Lemma late_run parse inputs : forall s s',
  Forall late_event inputs -> spent s -> run parse inputs s = Some s' ->
  spent s' /\
  armed (trace (window s')) = armed (trace (window s)) /\
  created (trace (window s')) = created (trace (window s)) /\
  next_handle (window s') = next_handle (window s) /\
  ws (this s') = ws (this s) /\
  timers (window s') ⊆ timers (window s).
Proof.
  induction inputs as [|i inputs IH]; intros s s' Hl Hsp; cbn.
  - intros [= <-]. done.
  - apply Forall_cons in Hl as [Hi Hl].
    destruct (step parse i s) as [s1|] eqn:Hs; [|done]. intros Hr.
    destruct (late_step _ _ _ _ Hi Hsp Hs) as (Hsp1 & Ha & Hc & Hn & Hw & Ht).
    destruct (IH _ _ Hl Hsp1 Hr) as (? & Ha' & Hc' & Hn' & Hw' & Ht').
    split; [done|]. rewrite Ha', Hc', Hn', Hw'. repeat split; try done.
    by etrans.
Qed.

(** C2 (as amended).  close() never throws.  In every state it clears every
    truthy handle held in reconnectTimer and pingInterval (the timers are no
    longer pending and the fields end up falsy), drops the transport
    reference, marks the manager disconnected and empties the handler
    registry, arming no timer and creating no socket.  When a transport is
    held it also sets retryCount to maxRetries, and it calls
    ws.close(1000, ..) exactly when that transport is OPEN: a transport that
    is connecting, closing or closed is left as it is.  A second close()
    changes nothing and makes no call.  After a close() that held a
    transport, any sequence of late close and error events of any sockets
    arms no timer, creates no socket, leaves the transport reference empty
    and adds no pending timer. *)
Theorem close_teardown (parse : string -> option json) (s : Sys) :
  let s' := snd (close s) in
  fst (close s) = Return tt /\
  (forall id,
     handle_truthy (reconnectTimer (this s)) = Some id \/
     handle_truthy (pingInterval (this s)) = Some id ->
     timers (window s') !! id = None) /\
  (handle_truthy (reconnectTimer (this s')) = None /\
   handle_truthy (pingInterval (this s')) = None /\
   ws (this s') = None /\ isConnected (this s') = false /\
   messageHandlers (this s') = ∅ /\
   armed (trace (window s')) = armed (trace (window s)) /\
   created (trace (window s')) = created (trace (window s))) /\
  (forall k, ws (this s) = Some k ->
     retryCount (this s') = maxRetries (this s') /\
     maxRetries (this s') = maxRetries (this s) /\
     (is_open s = true ->
      close_calls (trace (window s')) = (k, Some 1000%Z) :: close_calls (trace (window s)) /\
      readyState <$> sockets (window s') !! k = Some CLOSING) /\
     (is_open s = false ->
      close_calls (trace (window s')) = close_calls (trace (window s)) /\
      sockets (window s') = sockets (window s))) /\
  close s' = (Return tt, s') /\
  (forall k inputs s'',
     ws (this s) = Some k -> Forall late_event inputs ->
     run parse inputs s' = Some s'' ->
     armed (trace (window s'')) = armed (trace (window s')) /\
     created (trace (window s'')) = created (trace (window s')) /\
     ws (this s'') = None /\
     timers (window s'') ⊆ timers (window s')).
Proof.
  cbn zeta. split; [apply close_returns|].
  split; [intros id [H|H]; eauto using close_cancels_reconnect, close_cancels_ping|].
  split; [apply close_fields|].
  split; [intros k Hk; by apply close_holding|].
  split; [apply close_again|].
  intros k inputs s'' Hk Hl Hr.
  destruct (close_holding s k Hk) as (Hcnt & _).
  assert (Hsp : spent (snd (close s))) by (unfold spent; rewrite Hcnt; apply Z.ltb_irrefl).
  destruct (late_run _ _ _ _ Hl Hsp Hr) as (_ & Ha & Hc & _ & Hw & Ht).
  destruct (close_fields s) as (_ & _ & Hws & _).
  rewrite Hw, Hws. done.
Qed.

(** close() on an open manager: the reconnect and ping handles are gone,
    the socket is closed with code 1000, the budget is spent, and the late
    error and close events of that socket arm nothing. *)
Lemma close_teardown_witness :
  let s' := snd (close sample_open) in
  ws (this sample_open) = Some 1 /\ is_open sample_open = true /\
  handle_truthy (pingInterval (this sample_open)) = Some 2 /\
  timers (window s') !! 2 = None /\
  retryCount (this s') = 3%Z /\
  close_calls (trace (window s')) = [(1, Some 1000%Z)] /\
  exists s'', run sample_parse [Ws_error 1; Ws_close 1] s' = Some s'' /\
              armed (trace (window s'')) = armed (trace (window s')) /\
              created (trace (window s'')) = created (trace (window s')).
Proof.
  cbn zeta.
  destruct (close_teardown sample_parse sample_open)
    as (_ & Hcancel & _ & Hhold & _ & Hlate).
  assert (Hws : ws (this sample_open) = Some 1) by (vm_compute; reflexivity).
  assert (Hopen : is_open sample_open = true) by (vm_compute; reflexivity).
  assert (Hping : handle_truthy (pingInterval (this sample_open)) = Some 2)
    by (vm_compute; reflexivity).
  destruct (Hhold 1 Hws) as (Hcnt & Hmax & Hcl & _).
  destruct (Hcl Hopen) as (Hcalls & _).
  split; [exact Hws|]. split; [exact Hopen|]. split; [exact Hping|].
  split; [apply Hcancel; right; exact Hping|].
  split; [rewrite Hcnt, Hmax; vm_compute; reflexivity|].
  split; [rewrite Hcalls; vm_compute; reflexivity|].
  destruct (run sample_parse [Ws_error 1; Ws_close 1] (snd (close sample_open)))
    as [s''|] eqn:Hrun; [|vm_compute in Hrun; discriminate].
  exists s''. split; [reflexivity|].
  assert (Hl : Forall late_event [Ws_error 1; Ws_close 1]).
  { repeat constructor; eexists; eauto. }
  destruct (Hlate 1 _ _ Hws Hl Hrun) as (Ha & Hc & _).
  split; assumption.
Defined.

(** C2 as stated fails: close() called while the first socket is still
    connecting makes no ws.close call at all, and the socket stays
    CONNECTING. *)
Lemma close_skips_connecting_transport :
  let s := sample_connecting in
  let s' := snd (close s) in
  ws (this s) = Some 1 /\
  readyState <$> sockets (window s) !! 1 = Some CONNECTING /\
  ~ (exists code, In (1, code) (close_calls (trace (window s')))) /\
  readyState <$> sockets (window s') !! 1 = Some CONNECTING.
Proof.
  cbn zeta. split; [vm_compute; reflexivity|]. split; [vm_compute; reflexivity|].
  split; [|vm_compute; reflexivity].
  intros [code Hin]. vm_compute in Hin. exact Hin.
Qed.

(** What close() leaves behind when the socket was still connecting: if
    that socket opens afterwards, onopen resets the budget, arms the
    heartbeat and, finding no transport to send the join on, schedules a
    reconnect; a second close() then finds no transport and leaves the
    budget at 1, so the late close event of the socket arms a timer. *)
Lemma late_open_after_close_rearms :
  exists s1 s2,
    run sample_parse [Call_close; Ws_open 1] sample_connecting = Some s1 /\
    pending_reconnect s1 3 /\ retryCount (this s1) = 1%Z /\
    frames (trace (window s1)) = [] /\
    run sample_parse [Call_close; Ws_close 1] s1 = Some s2 /\
    pending_reconnect s2 4 /\ retryCount (this s2) = 2%Z.
Proof.
  eexists _, _.
  split; [vm_compute; reflexivity|].
  split; [eexists; split; vm_compute; reflexivity|].
  split; [vm_compute; reflexivity|].
  split; [vm_compute; reflexivity|].
  split; [vm_compute; reflexivity|].
  split; [eexists; split; vm_compute; reflexivity|].
  vm_compute; reflexivity.
Qed.

(** ** Backoff *)

(** With budget left, the retry scheduler counts the attempt, arms a
    one-shot timer with the current delay and doubles the delay, capped at
    10000 ms. *)
Lemma handleReconnect_schedules s :
  (retryCount (this s) < maxRetries (this s))%Z ->
  let s' := snd (handleReconnect s) in
  retryCount (this s') = (retryCount (this s) + 1)%Z /\
  retryDelay (this s') = Z.min (retryDelay (this s) * 2) 10000 /\
  reconnectTimer (this s') = Some (next_handle (window s)) /\
  timers (window s') !! next_handle (window s)
  = Some {| t_kind := Timeout; t_callback := Reconnect; t_delay := retryDelay (this s) |} /\
  reconnect_delays (trace (window s'))
  = retryDelay (this s) :: reconnect_delays (trace (window s)).
Proof.
  destruct_sys s. cbn. intros Hlt%Z.ltb_lt.
  unfold handleReconnect. unfold_monad. cbn.
  destruct (handle_truthy rt); cbn; rewrite Hlt; cbn;
    repeat split; try done; apply lookup_insert_eq.
Qed.

(** With the budget spent it arms nothing and reports the exhaustion. *)
Lemma handleReconnect_exhausted s :
  spent s ->
  let s' := snd (handleReconnect s) in
  this s' = this s /\
  armed (trace (window s')) = armed (trace (window s)) /\
  next_handle (window s') = next_handle (window s) /\
  reported (trace (window s'))
  = if onError (this s) then exhausted :: reported (trace (window s))
    else reported (trace (window s)).
Proof.
  destruct_sys s. unfold spent. cbn. intros Hsp.
  unfold handleReconnect. unfold_monad. cbn.
  destruct (handle_truthy rt); cbn; rewrite Hsp; cbn; by destruct sink.
Qed.


(** ** Receiving *)

Lemma get_property_type message err :
  get_property message "error" = inr err ->
  get_property message "type" = inr (type_tag message).
Proof. destruct message; cbn; done. Qed.

Lemma onmessage_dispatch parse data s message err :
  parse data = Some message ->
  get_property message "error" = inr err ->
  truthy err = false ->
  ws_onmessage parse data s =
  match handler_for s (type_tag message) with
  | Some h =>
      let s' := {| this := this s; window := log (EvHandler (h_id h) message) (window s) |} in
      match h_run h message with
      | Some e => (Return tt, told e s')
      | None => (Return tt, s')
      end
  | None => (Return tt, s)
  end.
Proof.
  intros Hp He Ht. pose proof (get_property_type _ _ He) as Hty.
  unfold ws_onmessage, get_handler, handler_for, told. unfold_monad.
  rewrite Hp. cbn. rewrite He. cbn. rewrite Ht. rewrite Hty. cbn.
  destruct (type_tag message) as [[| | |t| |]|]; try done.
  destruct (messageHandlers (this s) !! t) as [hd|]; [|done].
  cbn. destruct (h_run hd message); cbn; [|done].
  by destruct (onError (this s)).
Qed.

(** C9.  A frame that JSON.parse rejects: onmessage returns normally, the
    manager object is untouched (connection flag, retry state, timer
    handles, registry), so are the sockets and the timer table, and the only
    effect is one call of the error sink, with the SyntaxError, when a sink
    was supplied. *)
Theorem undecodable_frame (parse : string -> option json) (data : string) (s : Sys) :
  parse data = None ->
  let s' := snd (ws_onmessage parse data s) in
  fst (ws_onmessage parse data s) = Return tt /\
  s' = told (SyntaxError data) s /\
  this s' = this s /\
  sockets (window s') = sockets (window s) /\
  timers (window s') = timers (window s) /\
  (onError (this s) = true ->
   trace (window s') = EvOnError (SyntaxError data) :: trace (window s)) /\
  handler_calls (trace (window s')) = handler_calls (trace (window s)).
Proof.
  intros Hp. unfold ws_onmessage, told. unfold_monad. rewrite Hp. cbn.
  destruct (onError (this s)); cbn; repeat split; done.
Qed.

Lemma undecodable_frame_witness :
  sample_parse "not json" = None /\
  reported (trace (window (snd (ws_onmessage sample_parse "not json" sample_open))))
  = [SyntaxError "not json"].
Proof.
  assert (Hp : sample_parse "not json" = None) by reflexivity.
  split; [exact Hp|].
  destruct (undecodable_frame sample_parse "not json" sample_open Hp)
    as (_ & -> & _).
  vm_compute. reflexivity.
Defined.

(** C10.  A registered handler that throws: it is called once with the
    full payload, the exception is caught inside onmessage, which returns
    normally, and is handed to the error sink (when one was supplied); the
    manager object, the sockets and the timer table are untouched. *)
Theorem handler_exception_contained (parse : string -> option json) (data : string)
    (s : Sys) (message : json) (err : jsvalue) (h : MessageHandler) (e : exn) :
  parse data = Some message ->
  get_property message "error" = inr err ->
  truthy err = false ->
  handler_for s (type_tag message) = Some h ->
  h_run h message = Some e ->
  let s' := snd (ws_onmessage parse data s) in
  fst (ws_onmessage parse data s) = Return tt /\
  s' = told e {| this := this s; window := log (EvHandler (h_id h) message) (window s) |} /\
  this s' = this s /\
  sockets (window s') = sockets (window s) /\
  timers (window s') = timers (window s) /\
  next_handle (window s') = next_handle (window s) /\
  handler_calls (trace (window s')) = (h_id h, message) :: handler_calls (trace (window s)) /\
  (onError (this s) = true ->
   trace (window s') = EvOnError e :: EvHandler (h_id h) message :: trace (window s)).
Proof.
  intros Hp He Ht Hh Hr. cbn zeta.
  rewrite (onmessage_dispatch _ _ _ _ _ Hp He Ht), Hh. cbn. rewrite Hr.
  unfold told. cbn. destruct (onError (this s)); cbn; repeat split; done.
Qed.

Lemma handler_exception_contained_witness :
  let s := sample_chat throwing_handler in
  let s' := snd (ws_onmessage sample_parse "chat hi" s) in
  fst (ws_onmessage sample_parse "chat hi" s) = Return tt /\
  this s' = this s /\
  reported (trace (window s')) = [Thrown (JStr "oops")].
Proof.
  cbn zeta.
  destruct (handler_exception_contained sample_parse "chat hi"
              (sample_chat throwing_handler)
              (JObj [("type", JStr "chat"); ("text", JStr "hi")]) None
              throwing_handler (Thrown (JStr "oops"))
              eq_refl eq_refl eq_refl eq_refl eq_refl)
    as (Hret & Hs' & Hthis & _).
  split; [exact Hret|]. split; [exact Hthis|].
  rewrite Hs'. vm_compute. reflexivity.
Defined.



(** C7 (as amended).  A parsed frame whose [error] property is truthy (a
    non-empty string, a non-zero number, true, an array or an object):
    onmessage returns normally after handing new Error(message.error) to
    the sink (when one was supplied); no handler is called, whatever is
    registered for the frame's type, and the manager object, the sockets
    and the timer table are untouched. *)
Theorem server_error_frame (parse : string -> option json) (data : string)
    (s : Sys) (message : json) (err : jsvalue) :
  parse data = Some message ->
  get_property message "error" = inr err ->
  truthy err = true ->
  let s' := snd (ws_onmessage parse data s) in
  fst (ws_onmessage parse data s) = Return tt /\
  s' = told (Error_of err) s /\
  this s' = this s /\
  sockets (window s') = sockets (window s) /\
  timers (window s') = timers (window s) /\
  handler_calls (trace (window s')) = handler_calls (trace (window s)) /\
  (onError (this s) = true ->
   trace (window s') = EvOnError (Error_of err) :: trace (window s)).
Proof.
  intros Hp He Ht. unfold ws_onmessage, told. unfold_monad.
  rewrite Hp. cbn. rewrite He. cbn. rewrite Ht.
  destruct (onError (this s)); cbn; repeat split; done.
Qed.

Lemma server_error_frame_witness :
  let s := sample_chat quiet_handler in
  let s' := snd (ws_onmessage sample_parse "chat with error boom" s) in
  reported (trace (window s')) = [Error_of (Some (JStr "boom"))] /\
  handler_calls (trace (window s')) = [].
Proof.
  cbn zeta.
  destruct (server_error_frame sample_parse "chat with error boom"
              (sample_chat quiet_handler)
              (JObj [("type", JStr "chat"); ("error", JStr "boom")])
              (Some (JStr "boom")) eq_refl eq_refl eq_refl)
    as (_ & Hs' & _ & _ & _ & Hcalls & _).
  split; [rewrite Hs'; vm_compute; reflexivity|].
  rewrite Hcalls. vm_compute. reflexivity.
Defined.

(** C7 as stated fails: the frame {type: "chat", error: ""} carries an
    error field, yet the "chat" handler is called with it and the sink is
    not. *)
Lemma empty_error_reaches_handler :
  let s := sample_chat quiet_handler in
  let message := JObj [("type", JStr "chat"); ("error", JStr "")] in
  let s' := snd (ws_onmessage sample_parse "chat with empty error" s) in
  sample_parse "chat with empty error" = Some message /\
  get_property message "error" = inr (Some (JStr "")) /\
  handler_calls (trace (window s')) = [(h_id quiet_handler, message)] /\
  reported (trace (window s')) = reported (trace (window s)).
Proof. cbn zeta. repeat split; vm_compute; reflexivity. Qed.

(** ** Sending *)

Lemma handleReconnect_returns s : fst (handleReconnect s) = Return tt.
Proof. destruct_sys s. by run_method. Qed.

(** The retry scheduler sends nothing, calls no handler, touches neither
    the sockets nor the transport reference nor the registry. *)
Lemma handleReconnect_frame s :
  let s' := snd (handleReconnect s) in
  frames (trace (window s')) = frames (trace (window s)) /\
  handler_calls (trace (window s')) = handler_calls (trace (window s)) /\
  created (trace (window s')) = created (trace (window s)) /\
  sockets (window s') = sockets (window s) /\
  next_socket (window s') = next_socket (window s) /\
  ws (this s') = ws (this s) /\
  messageHandlers (this s') = messageHandlers (this s) /\
  pingInterval (this s') = pingInterval (this s).
Proof. destruct_sys s. by run_method. Qed.

(** C6.  send(message) never throws.  When the manager holds no transport
    or its transport is not OPEN, send does exactly what the retry scheduler
    does and nothing else: no frame is handed to any socket, and the state
    has no place where the message could be kept.  When the transport is
    OPEN, a serialisable message is handed to it as one frame and nothing
    else changes; a message JSON.stringify rejects goes to the error sink
    instead. *)
Theorem send_gated (message : any) (s : Sys) :
  fst (send message s) = Return tt /\
  (is_open s = false ->
   send message s = handleReconnect s /\
   frames (trace (window (snd (send message s)))) = frames (trace (window s))) /\
  (is_open s = true ->
   exists k, ws (this s) = Some k /\
     snd (send message s) =
     match message with
     | Plain v => {| this := this s; window := log (EvWsSend k v) (window s) |}
     | Circular => told (TypeError "Converting circular structure to JSON") s
     end).
Proof.
  split; [|split].
  - destruct_sys s. by run_method.
  - intros Ho. assert (Hs : send message s = handleReconnect s).
    { destruct_sys s. unfold is_open in Ho. cbn in Ho. unfold send. unfold_monad. cbn.
      destruct w as [k|]; [|done]. by rewrite Ho. }
    split; [done|]. rewrite Hs. apply handleReconnect_frame.
  - intros Ho. destruct_sys s. unfold is_open in Ho. cbn in Ho.
    destruct w as [k|]; [|done]. exists k. split; [done|].
    unfold send, told. unfold_monad. cbn. rewrite Ho.
    destruct message; cbn; [done|]. by destruct sink.
Qed.

Lemma send_gated_witness :
  is_open sample_connecting = false /\
  frames (trace (window (snd (send (Plain ping_message) sample_connecting)))) = [] /\
  reconnect_delays (trace (window (snd (send (Plain ping_message) sample_connecting))))
  = [1000%Z] /\
  is_open sample_open = true /\
  frames (trace (window (snd (send (Plain (JStr "hello")) sample_open))))
  = [(1, JStr "hello"); (1, join_message "room")].
Proof.
  assert (Hc : is_open sample_connecting = false) by (vm_compute; reflexivity).
  assert (Ho : is_open sample_open = true) by (vm_compute; reflexivity).
  destruct (send_gated (Plain ping_message) sample_connecting) as (_ & Hclosed & _).
  destruct (send_gated (Plain (JStr "hello")) sample_open) as (_ & _ & Hopen).
  destruct (Hclosed Hc) as (Hs & Hf). destruct (Hopen Ho) as (k & Hk & Hsnd).
  split; [exact Hc|]. split; [rewrite Hf; vm_compute; reflexivity|].
  split; [rewrite Hs; vm_compute; reflexivity|].
  split; [exact Ho|].
  rewrite Hsnd. assert (k = 1) as -> by (vm_compute in Hk; congruence).
  vm_compute. reflexivity.
Defined.

(** ** Heartbeat *)

Lemma ping_tick_spec s :
  fst (ping_tick s) = Return tt /\
  (is_open s = false -> snd (ping_tick s) = s) /\
  (is_open s = true ->
   exists k, ws (this s) = Some k /\
     snd (ping_tick s) = {| this := this s; window := log (EvWsSend k ping_message) (window s) |}).
Proof.
  destruct_sys s. unfold is_open. cbn. split; [by run_method|split]; intros Ho.
  - unfold ping_tick. unfold_monad. cbn. destruct w as [k|]; [|done]. by rewrite Ho.
  - destruct w as [k|]; [|done]. exists k. split; [done|].
    unfold ping_tick, send. unfold_monad. cbn. rewrite Ho. cbn. by rewrite ?Ho.
Qed.

Lemma ws_onopen_arms_ping t s :
  is_open s = true ->
  let s' := snd (ws_onopen t s) in
  pingInterval (this s') = Some (next_handle (window s)) /\
  timers (window s') !! next_handle (window s)
  = Some {| t_kind := Interval; t_callback := Ping; t_delay := 30000 |}.
Proof.
  destruct_sys s. unfold is_open. cbn. intros Ho.
  destruct w as [k|]; [|done].
  unfold ws_onopen, setupPing, send. unfold_monad. cbn.
  destruct (handle_truthy p); cbn; rewrite Ho; cbn; (split; [done|]);
    apply lookup_insert_eq.
Qed.

Lemma ws_onclose_clears_ping t s id :
  handle_truthy (pingInterval (this s)) = Some id ->
  let s' := snd (ws_onclose t s) in
  pingInterval (this s') = None /\ ~ pending_ping s' id.
Proof.
  destruct_sys s. cbn. intros Hp. unfold pending_ping.
  unfold_methods. unfold_monad. cbn. rewrite Hp.
  branches; (split; [done|]); intros (tm & Hl & Hc).
  all: repeat first
    [ apply lookup_insert_Some in Hl as [[_ <-]|[_ Hl]]; [done|]
    | apply lookup_delete_Some in Hl as [? Hl] ]; done.
Qed.

Lemma close_clears_ping s id :
  handle_truthy (pingInterval (this s)) = Some id ->
  let s' := snd (close s) in
  pingInterval (this s') = None /\ ~ pending_ping s' id.
Proof.
  intros Hp. cbn zeta. split.
  - destruct_sys s. cbn in Hp. run_method; congruence.
  - intros (tm & Hl & _). by rewrite (close_cancels_ping _ _ Hp) in Hl.
Qed.

(** C5 (as amended).  A tick of the heartbeat interval never throws; it
    does nothing at all unless the manager's transport is OPEN, and then it
    hands exactly the frame {type: "ping"} to that transport.  When the
    current transport opens, onopen arms an interval of 30000 ms with that
    callback and keeps its handle in pingInterval.  The close event of a
    socket and close() clear the interval whose handle is held and reset
    pingInterval to null.  (The retry scheduler and connect() do not touch
    the heartbeat interval.) *)
Theorem heartbeat_gated (t : nat) (s : Sys) :
  (fst (ping_tick s) = Return tt /\
   (is_open s = false -> snd (ping_tick s) = s) /\
   (is_open s = true ->
    exists k, ws (this s) = Some k /\
      snd (ping_tick s)
      = {| this := this s; window := log (EvWsSend k ping_message) (window s) |})) /\
  (is_open s = true ->
   pingInterval (this (snd (ws_onopen t s))) = Some (next_handle (window s)) /\
   timers (window (snd (ws_onopen t s))) !! next_handle (window s)
   = Some {| t_kind := Interval; t_callback := Ping; t_delay := 30000 |}) /\
  (forall id, handle_truthy (pingInterval (this s)) = Some id ->
     (pingInterval (this (snd (ws_onclose t s))) = None /\
      ~ pending_ping (snd (ws_onclose t s)) id) /\
     (pingInterval (this (snd (close s))) = None /\
      ~ pending_ping (snd (close s)) id)) /\
  pingInterval (this (snd (handleReconnect s))) = pingInterval (this s).
Proof.
  split; [apply ping_tick_spec|].
  split; [apply ws_onopen_arms_ping|].
  split; [|apply handleReconnect_frame].
  intros id Hp. split; [by apply ws_onclose_clears_ping|by apply close_clears_ping].
Qed.

Lemma heartbeat_gated_witness :
  is_open sample_connecting = false /\
  snd (ping_tick sample_connecting) = sample_connecting /\
  is_open sample_open = true /\
  frames (trace (window (snd (ping_tick sample_open))))
  = [(1, ping_message); (1, join_message "room")] /\
  handle_truthy (pingInterval (this sample_open)) = Some 2 /\
  pending_ping sample_open 2 /\
  ~ pending_ping (snd (ws_onclose 1 sample_open)) 2 /\
  ~ pending_ping (snd (close sample_open)) 2.
Proof.
  assert (Hc : is_open sample_connecting = false) by (vm_compute; reflexivity).
  assert (Ho : is_open sample_open = true) by (vm_compute; reflexivity).
  assert (Hp : handle_truthy (pingInterval (this sample_open)) = Some 2)
    by (vm_compute; reflexivity).
  destruct (heartbeat_gated 1 sample_connecting) as ((_ & Hidle & _) & _).
  destruct (heartbeat_gated 1 sample_open) as ((_ & _ & Hsend) & _ & Hstop & _).
  destruct (Hsend Ho) as (k & Hk & Hs). destruct (Hstop 2 Hp) as ((_ & H1) & (_ & H2)).
  split; [exact Hc|]. split; [exact (Hidle Hc)|]. split; [exact Ho|].
  split.
  { rewrite Hs. assert (k = 1) as -> by (vm_compute in Hk; congruence).
    vm_compute. reflexivity. }
  split; [exact Hp|].
  split; [eexists; split; vm_compute; reflexivity|].
  split; assumption.
Defined.

(** C5 as stated fails: with the transport open and the heartbeat armed
    (handle 2), the peer starts the closing handshake, a send then finds the
    transport not OPEN and schedules a reconnect, and the reconnect timer
    fires: connect() creates socket 2, the channel is not open, and the
    heartbeat interval is still pending. *)
Lemma heartbeat_survives_reconnect :
  exists s,
    run sample_parse [Ws_closing 1; Call_send (Plain (JStr "hello")); Timer_fire 3 false]
      sample_open = Some s /\
    created (trace (window s)) = [2; 1] /\
    is_open s = false /\
    pingInterval (this s) = Some 2 /\
    timers (window s) !! 2
    = Some {| t_kind := Interval; t_callback := Ping; t_delay := 30000 |}.
Proof.
  eexists. split; [vm_compute; reflexivity|].
  repeat split; vm_compute; reflexivity.
Qed.

(** The close event of a socket that connect() had already replaced also
    clears the heartbeat: after a connection timeout on socket 1, socket 2
    opens and arms interval 4; when the close event of socket 1 arrives the
    interval is cleared although socket 2 stays open. *)
Lemma stale_close_event_stops_heartbeat :
  exists s1 s2,
    run sample_parse [Timer_fire 1 false; Timer_fire 2 false; Ws_open 2]
      sample_connecting = Some s1 /\
    pending_ping s1 4 /\
    step sample_parse (Ws_close 1) s1 = Some s2 /\
    is_open s2 = true /\ pingInterval (this s2) = None /\
    timers (window s2) !! 4 = None.
Proof.
  eexists _, _. split; [vm_compute; reflexivity|].
  split; [eexists; split; vm_compute; reflexivity|].
  split; [vm_compute; reflexivity|].
  repeat split; vm_compute; reflexivity.
Qed.

(** ** The join announcement *)

Lemma link_inv_alter (f : WebSocket -> WebSocket) w socks ns fs k :
  (forall sock, readyState (f sock) = CONNECTING -> readyState sock = CONNECTING) ->
  link_inv w socks ns fs -> link_inv w (alter f k socks) ns fs.
Proof.
  intros Hf (Hcur & Hsent & Hids). split; [|split].
  - intros k' sock' Hl Hr. apply lookup_alter_Some in Hl as [(-> & sock & Hl & ->)|[_ Hl]]; eauto.
  - intros k' fr Hin. destruct (Hsent _ _ Hin) as (sock & Hl & Hr).
    destruct (decide (k = k')) as [->|Hne].
    + exists (f sock). rewrite lookup_alter_eq, Hl. split; [done|]. eauto.
    + exists sock. by rewrite lookup_alter_ne.
  - intros k' sock' Hl. apply lookup_alter_Some in Hl as [(-> & sock & Hl & ->)|[_ Hl]]; eauto.
Qed.

Lemma link_inv_closing w socks ns fs k :
  link_inv w socks ns fs -> link_inv w (alter closing k socks) ns fs.
Proof.
  apply link_inv_alter. intros sock. unfold closing.
  destruct (readyState sock) eqn:Hr; cbn; congruence.
Qed.

Lemma link_inv_handlers w socks ns fs k t :
  link_inv w socks ns fs ->
  link_inv w (alter (fun sock => {| readyState := readyState sock;
                                    connectionTimeout := Some t |}) k socks) ns fs.
Proof. by apply link_inv_alter. Qed.

Lemma link_inv_ready w socks ns fs k r :
  r <> CONNECTING ->
  link_inv w socks ns fs ->
  link_inv w (alter (fun sock => {| readyState := r;
                                    connectionTimeout := connectionTimeout sock |}) k socks) ns fs.
Proof. intros Hr. apply link_inv_alter. by intros sock. Qed.

Lemma link_inv_send w socks ns fs k f :
  link_inv w socks ns fs -> is_OPEN (readyState <$> socks !! k) = true ->
  link_inv w socks ns ((k, f) :: fs).
Proof.
  intros (Hcur & Hsent & Hids) (sock & Hl & Hr)%is_OPEN_lookup. split; [done|split; [|done]].
  intros k' fr [[= <- <-]|Hin]; [|eauto].
  exists sock. split; [done|]. by rewrite Hr.
Qed.

(** connect() closes the transport it held before dropping it: no socket
    is left connecting. *)
Lemma link_inv_drop k socks ns fs :
  link_inv (Some k) socks ns fs -> link_inv None (alter closing k socks) ns fs.
Proof.
  intros Hinv. pose proof (link_inv_closing _ _ _ _ k Hinv) as (Hcur & Hsent & Hids).
  split; [|done].
  intros k' sock' Hl Hr. specialize (Hcur _ _ Hl Hr) as [= ->].
  apply lookup_alter_Some in Hl as [(_ & sock & _ & ->)|[? _]]; [|done].
  unfold closing in Hr. destruct (readyState sock) eqn:Hr'; cbn in Hr; congruence.
Qed.

Lemma link_inv_new socks ns fs :
  link_inv None socks ns fs ->
  link_inv (Some ns)
    (<[ns := {| readyState := CONNECTING; connectionTimeout := None |}]> socks) (S ns) fs.
Proof.
  intros (Hcur & Hsent & Hids). split; [|split].
  - intros k sock Hl Hr. apply lookup_insert_Some in Hl as [[-> _]|[_ Hl]]; [done|].
    by specialize (Hcur _ _ Hl Hr).
  - intros k fr Hin. destruct (Hsent _ _ Hin) as (sock & Hl & Hr).
    exists sock. split; [|done]. rewrite lookup_insert_ne; [done|].
    specialize (Hids _ _ Hl). lia.
  - intros k sock Hl. apply lookup_insert_Some in Hl as [[<- _]|[_ Hl]]; [lia|].
    specialize (Hids _ _ Hl). lia.
Qed.

Create HintDb link.
#[local] Hint Resolve link_inv_closing link_inv_handlers link_inv_send
  link_inv_drop link_inv_new : link.

Lemma handleReconnect_link_ok s : link_ok s -> link_ok (snd (handleReconnect s)).
Proof.
  unfold link_ok. destruct (handleReconnect_frame s) as (-> & _ & _ & -> & -> & -> & _).
  done.
Qed.

Lemma send_link_ok message s : link_ok s -> link_ok (snd (send message s)).
Proof.
  destruct_sys s. unfold link_ok. intros Hinv. run_method; eauto with link.
Qed.

Lemma setupPing_link_ok s : link_ok s -> link_ok (snd (setupPing s)).
Proof.
  destruct_sys s. unfold link_ok. intros Hinv. run_method; eauto with link.
Qed.

Lemma ping_tick_link_ok s : link_ok s -> link_ok (snd (ping_tick s)).
Proof.
  destruct_sys s. unfold link_ok. intros Hinv. run_method; eauto with link.
Qed.

Lemma connect_link_ok fails s : link_ok s -> link_ok (snd (connect fails s)).
Proof.
  destruct_sys s. unfold link_ok. intros Hinv. run_method; eauto 8 with link.
Qed.

Lemma connectionTimeout_tick_link_ok s :
  link_ok s -> link_ok (snd (connectionTimeout_tick s)).
Proof.
  destruct_sys s. unfold link_ok. intros Hinv. run_method; eauto with link.
Qed.

Lemma ws_onopen_link_ok t s : link_ok s -> link_ok (snd (ws_onopen t s)).
Proof.
  destruct_sys s. unfold link_ok. intros Hinv. run_method; eauto with link.
Qed.

Lemma ws_onclose_link_ok t s : link_ok s -> link_ok (snd (ws_onclose t s)).
Proof.
  destruct_sys s. unfold link_ok. intros Hinv. run_method; eauto with link.
Qed.

Lemma ws_onmessage_link_ok parse data s :
  link_ok s -> link_ok (snd (ws_onmessage parse data s)).
Proof.
  destruct_sys s. unfold link_ok. intros Hinv. run_method; eauto with link.
Qed.

Lemma set_ready_link_ok k r s : r <> CONNECTING -> link_ok s -> link_ok (set_ready k r s).
Proof. unfold link_ok. cbn. apply link_inv_ready. Qed.

Lemma step_link_ok parse i s s' :
  i <> Call_close -> link_ok s -> step parse i s = Some s' -> link_ok s'.
Proof.
  intros Hi Hinv. unfold step, deliver.
  destruct i; cbn; intros Hs; try done.
  8: { destruct (timers (window s) !! id) as [tm|] eqn:Hl; simplify_eq/=.
       assert (Hx : link_ok (match t_kind tm with Timeout => expire id s | Interval => s end))
         by (by destruct (t_kind tm)).
       destruct (t_callback tm); cbn;
         auto using connectionTimeout_tick_link_ok, ping_tick_link_ok.
       apply connect_link_ok. by destruct (t_kind tm). }
  all: repeat case_match; simplify_eq/=;
    eauto using send_link_ok, ws_onmessage_link_ok.
  - apply ws_onopen_link_ok. by apply set_ready_link_ok.
  - by apply set_ready_link_ok.
  - apply ws_onclose_link_ok. by apply set_ready_link_ok.
  - apply ws_onclose_link_ok. by apply set_ready_link_ok.
  - apply ws_onclose_link_ok. by apply set_ready_link_ok.
  - destruct_sys s. unfold link_ok in *. by run_method.
  - destruct_sys s. unfold link_ok in *. by run_method.
  - destruct_sys s. unfold link_ok in *. by run_method.
Qed.

Lemma initial_link_ok room sink : link_ok (initial room sink).
Proof.
  unfold link_ok, link_inv. cbn. split; [|split]; try done.
  all: intros k sock Hl; by rewrite lookup_empty in Hl.
Qed.

Lemma cycling_link_ok parse s : cycling parse s -> link_ok s.
Proof.
  induction 1 as [room sink fails|s i s' _ IH Hi Hstep].
  - apply connect_link_ok, initial_link_ok.
  - eauto using step_link_ok.
Qed.

(** The frames handed to the sockets only accumulate. *)
Lemma step_frames_grow parse i s s' :
  step parse i s = Some s' ->
  frames (trace (window s)) `suffix_of` frames (trace (window s')).
Proof.
  unfold step, deliver. destruct_sys s.
  destruct i; cbn; intros Hs; repeat case_match; simplify_eq/=.
  all: unfold run_callback; run_method; repeat (apply suffix_cons_r); reflexivity.
Qed.

Lemma run_frames_grow parse inputs : forall s s',
  run parse inputs s = Some s' ->
  frames (trace (window s)) `suffix_of` frames (trace (window s')).
Proof.
  induction inputs as [|i inputs IH]; intros s s'; cbn.
  - by intros [= <-].
  - destruct (step parse i s) as [s1|] eqn:Hs; [|done]. intros Hr.
    etrans; [by eapply step_frames_grow|by apply IH].
Qed.

(** The open event of a connecting socket that is the current transport. *)
Lemma open_current_socket parse s s' k :
  (forall k sock, sockets (window s) !! k = Some sock ->
                  readyState sock = CONNECTING -> ws (this s) = Some k) ->
  step parse (Ws_open k) s = Some s' ->
  frames (trace (window s'))
  = (k, join_message (roomId (this s))) :: frames (trace (window s)) /\
  retryCount (this s') = 0%Z /\ retryDelay (this s') = 1000%Z /\
  isConnected (this s') = true /\ roomId (this s') = roomId (this s) /\
  ws (this s) = Some k /\
  exists sock, sockets (window s) !! k = Some sock /\ readyState sock = CONNECTING.
Proof.
  unfold step, deliver. destruct_sys s. cbn. intros Hcur.
  destruct (socks !! k) as [[r ct]|] eqn:Hl; [|done].
  destruct r; try done. destruct ct as [t|]; [|done]. cbn.
  intros [= <-]. specialize (Hcur k _ Hl eq_refl) as ->.
  unfold ws_onopen, setupPing, send. unfold_monad. cbn.
  destruct (handle_truthy p); cbn; rewrite lookup_alter_eq, Hl; cbn;
    repeat split; eauto.
Qed.

(** C3 (as amended).  In every state reached through disconnect/reconnect
    cycles (any inputs but the teardown close()), when the handshake of a
    socket succeeds: that socket is the manager's transport and nothing had
    been sent on it; onopen hands it exactly one frame, the object
    {type: "join", roomId: r} where r is the identifier the manager was
    constructed with; retryCount is back to 0 and retryDelay to 1000, and
    the manager is marked connected.  Whatever happens afterwards, the
    frames sent later come after that join. *)
Theorem join_first_on_open (parse : string -> option json) (s s' : Sys) (k : nat) :
  cycling parse s ->
  step parse (Ws_open k) s = Some s' ->
  ws (this s) = Some k /\
  (forall f, ~ In (k, f) (frames (trace (window s)))) /\
  frames (trace (window s'))
  = (k, join_message (roomId (this s))) :: frames (trace (window s)) /\
  retryCount (this s') = 0%Z /\ retryDelay (this s') = 1000%Z /\
  isConnected (this s') = true /\
  roomId (this s') = roomId (this s) /\
  (forall inputs s'', run parse inputs s' = Some s'' ->
     exists later,
       frames (trace (window s''))
       = (later ++ (k, join_message (roomId (this s))) :: frames (trace (window s)))%list).
Proof.
  intros Hcyc Hstep. pose proof (cycling_link_ok _ _ Hcyc) as (Hcur & Hsent & _).
  destruct (open_current_socket _ _ _ _ Hcur Hstep)
    as (Hfr & Hc & Hd & Hi & Hroom & Hws & sock & Hl & Hr).
  split; [done|]. split.
  { intros f Hin. destruct (Hsent _ _ Hin) as (sock' & Hl' & Hr'). congruence. }
  split; [done|]. split; [done|]. split; [done|]. split; [done|]. split; [done|].
  intros inputs s'' Hrun. apply run_frames_grow in Hrun as [later Hlater].
  exists later. by rewrite Hlater, Hfr.
Qed.

Lemma join_first_on_open_witness :
  exists s',
    step sample_parse (Ws_open 2) sample_reconnecting = Some s' /\
    frames (trace (window s')) = [(2, join_message "room")] /\
    retryCount (this sample_reconnecting) = 1%Z /\
    retryCount (this s') = 0%Z /\ retryDelay (this s') = 1000%Z.
Proof.
  destruct (step sample_parse (Ws_open 2) sample_reconnecting) as [s'|] eqn:Hstep;
    [|vm_compute in Hstep; discriminate].
  assert (Hcyc : cycling sample_parse sample_reconnecting).
  { apply (reachable_via_run _ _ [Ws_close 1; Timer_fire 2 false] sample_connecting).
    - apply reach_construct.
    - repeat constructor; discriminate.
    - vm_compute. reflexivity. }
  destruct (join_first_on_open sample_parse sample_reconnecting s' 2 Hcyc Hstep)
    as (_ & _ & Hfr & Hc & Hd & _).
  exists s'. split; [reflexivity|].
  split; [rewrite Hfr; vm_compute; reflexivity|].
  split; [vm_compute; reflexivity|]. split; assumption.
Defined.

(** C3 as stated fails on the form of the frame: the join sent when the
    first socket opens carries the identifier under the key roomId; it is
    not the object {type: "join", sessionId: "room"} and has no sessionId
    property. *)
Lemma join_frame_key_is_roomId :
  exists s' frame,
    step sample_parse (Ws_open 1) sample_connecting = Some s' /\
    frames (trace (window s')) = [(1, frame)] /\
    frame <> JObj [("type", JStr "join"); ("sessionId", JStr "room")] /\
    get_property frame "sessionId" = inr None /\
    get_property frame "roomId" = inr (Some (JStr "room")).
Proof.
  eexists _, _. split; [vm_compute; reflexivity|].
  split; [vm_compute; reflexivity|]. split; [discriminate|].
  split; reflexivity.
Qed.

(** * Further properties of the manager *)

Ltac arith_tests :=
  repeat match goal with
         | H : (_ <? _)%Z = true |- _ => apply Z.ltb_lt in H
         | H : (_ <? _)%Z = false |- _ => apply Z.ltb_ge in H
         end.

Ltac run_goal :=
  unfold run_callback, ws_onopen, ws_onclose, ws_onerror, ws_onmessage, onMessage,
    get_handler, close, reconnect_tick, connectionTimeout_tick, connect, ping_tick,
    setupPing, send, handleReconnect;
  unfold lift, mbind, mret, M_bind, M_ret, bind, ret, throw, try_catch, field, assign,
     setTimer, clearTimer, new_WebSocket, ws_readyState, ws_close, ws_send,
     call_onError, call_handler, assign_handlers, set_ready, expire, log,
     set_ws, set_messageHandlers, set_isConnected, set_reconnectTimer,
     set_retryCount, set_retryDelay, set_pingInterval;
  repeat (cbn; case_inner); cbn.

Ltac all_inputs i :=
  unfold step, deliver; destruct i; cbn; intros; repeat case_match; simplify_eq/=;
  run_goal.

Lemma step_retry_ok parse i s s' :
  retry_ok s -> step parse i s = Some s' -> retry_ok s'.
Proof.
  destruct_sys s. unfold retry_ok, reconnect_delays. cbn. intros [Hr Hd].
  revert s'. all_inputs i.
  all: arith_tests; unfold retry_inv, backoff_delay in *;
    (split; [lia|]); try done.
  all: constructor; [lia|done].
Qed.

Lemma reachable_via_weaken parse (allowed allowed' : input -> Prop) s :
  (forall i, allowed i -> allowed' i) ->
  reachable_via parse allowed s -> reachable_via parse allowed' s.
Proof.
  intros Hsub. induction 1 as [room sink fails|s i s' _ IH Hi Hstep].
  - apply reach_construct.
  - eapply reach_step; eauto.
Qed.

Lemma cycling_reachable parse s : cycling parse s -> reachable parse s.
Proof. by apply reachable_via_weaken. Qed.

Lemma construct_retry_ok room sink fails : retry_ok (snd (construct room sink fails)).
Proof.
  unfold construct, retry_ok, reconnect_delays, initial.
  destruct fails; run_goal; unfold retry_inv, backoff_delay;
    (split; [lia|]); repeat constructor; lia.
Qed.

Lemma reachable_retry_ok parse s : reachable parse s -> retry_ok s.
Proof.
  induction 1 as [room sink fails|s i s' _ IH _ Hstep].
  - apply construct_retry_ok.
  - eauto using step_retry_ok.
Qed.

(** X1.  In every reachable state maxRetries is 3, retryCount lies between
    0 and 3, retryDelay is 1000, 2000, 4000 or 8000, and every reconnect
    timer armed so far had a delay of 1000, 2000 or 4000 ms: the cap of
    10000 ms in Math.min is never reached. *)
Theorem backoff_bounds (parse : string -> option json) (s : Sys) :
  reachable parse s ->
  maxRetries (this s) = 3%Z /\
  (0 <= retryCount (this s) <= 3)%Z /\
  In (retryDelay (this s)) [1000%Z; 2000%Z; 4000%Z; 8000%Z] /\
  (forall d, In d (reconnect_delays (trace (window s))) ->
             In d [1000%Z; 2000%Z; 4000%Z]).
Proof.
  intros Hr. destruct (reachable_retry_ok _ _ Hr) as [(Hm & Hc & Hd) Hall].
  split; [done|]. split; [done|]. split.
  - cbn. lia.
  - intros d Hin. rewrite Forall_forall in Hall.
    apply list_elem_of_In in Hin. specialize (Hall d Hin). unfold backoff_delay in Hall.
    cbn. lia.
Qed.

Lemma deliver_returns parse i s x :
  deliver parse i s = Some x -> fst x = Return tt.
Proof.
  destruct_sys s. unfold deliver. destruct i; cbn; intros Hx;
    repeat case_match; simplify_eq/=; run_goal; done.
Qed.

(** X2.  One turn of the event loop hands at most one frame to a socket,
    and when it does, the socket is the manager's transport and is OPEN. *)
Theorem frames_go_to_open_transport (parse : string -> option json) (i : input)
    (s s' : Sys) :
  step parse i s = Some s' ->
  frames (trace (window s')) = frames (trace (window s)) \/
  exists k f, frames (trace (window s')) = (k, f) :: frames (trace (window s)) /\
              ws (this s') = Some k /\ is_open s' = true.
Proof.
  destruct_sys s. revert s'. all_inputs i.
  all: first [ by left
             | right; eexists _, _; split; [reflexivity|];
               split; [reflexivity|]; unfold is_open; cbn; done ].
Qed.

Lemma step_spent parse i s s' :
  (forall k, i <> Ws_open k) -> spent s -> step parse i s = Some s' ->
  spent s' /\
  reconnect_delays (trace (window s')) = reconnect_delays (trace (window s)).
Proof.
  destruct_sys s. unfold spent, reconnect_delays. cbn. intros Hi Hsp. revert s'.
  destruct i as [m|ty hd| |k|k|k|k|k dat|tid fl]; try (by destruct (Hi k)).
  all: unfold step, deliver; cbn; intros; repeat case_match; simplify_eq/=; run_goal.
  all: arith_tests; first [lia | split; [apply Z.ltb_ge; lia|done]].
Qed.

Lemma live_inv_alter (f : WebSocket -> WebSocket) w socks k :
  (forall sock, live (f sock) -> live sock) ->
  live_inv w socks -> live_inv w (alter f k socks).
Proof.
  intros Hf Hinv k' sock' Hl Hlive.
  apply lookup_alter_Some in Hl as [(-> & sock & Hl & ->)|[_ Hl]]; eauto.
Qed.

Lemma live_inv_closing w socks k :
  live_inv w socks -> live_inv w (alter closing k socks).
Proof.
  apply live_inv_alter. intros sock. unfold closing, live.
  destruct (readyState sock) eqn:Hr; cbn; intros [?|?]; auto; congruence.
Qed.

Lemma live_inv_handlers w socks k t :
  live_inv w socks ->
  live_inv w (alter (fun sock => {| readyState := readyState sock;
                                    connectionTimeout := Some t |}) k socks).
Proof. by apply live_inv_alter. Qed.

Lemma live_inv_dead w socks k r :
  r = CLOSING \/ r = CLOSED ->
  live_inv w socks ->
  live_inv w (alter (fun sock => {| readyState := r;
                                    connectionTimeout := connectionTimeout sock |}) k socks).
Proof.
  intros Hr. apply live_inv_alter. intros sock [?|?]; cbn in *; destruct Hr; congruence.
Qed.

Lemma live_inv_open w socks k sock :
  socks !! k = Some sock -> readyState sock = CONNECTING ->
  live_inv w socks ->
  live_inv w (alter (fun sock => {| readyState := OPEN;
                                    connectionTimeout := connectionTimeout sock |}) k socks).
Proof.
  intros Hl Hr Hinv k' sock' Hl' Hlive.
  apply lookup_alter_Some in Hl' as [(Heq & sock0 & Hl0 & ->)|[_ Hl']]; [|eauto].
  subst k'. apply (Hinv k sock); [done|by left].
Qed.

Lemma live_inv_drop w k socks :
  live_inv w socks -> w = Some k -> live_inv None (alter closing k socks).
Proof.
  intros Hinv -> k' sock' Hl Hlive.
  apply lookup_alter_Some in Hl as [(Heq & sock & Hl & ->)|[Hne Hl]].
  - unfold closing, live in Hlive.
    destruct (readyState sock) eqn:Hr; cbn in Hlive; rewrite ?Hr in Hlive;
      destruct Hlive; congruence.
  - specialize (Hinv _ _ Hl Hlive). congruence.
Qed.

Lemma live_inv_new socks ns :
  live_inv None socks ->
  live_inv (Some ns)
    (<[ns := {| readyState := CONNECTING; connectionTimeout := None |}]> socks).
Proof.
  intros Hinv k sock Hl Hlive.
  apply lookup_insert_Some in Hl as [[-> _]|[_ Hl]]; [done|].
  by specialize (Hinv _ _ Hl Hlive).
Qed.

Create HintDb live.
#[local] Hint Resolve live_inv_closing live_inv_handlers live_inv_drop live_inv_new : live.

Lemma step_live_ok parse i s s' :
  i <> Call_close -> live_ok s -> step parse i s = Some s' -> live_ok s'.
Proof.
  destruct_sys s. unfold live_ok. cbn. intros Hi Hinv. revert s'.
  destruct i as [m|ty hd| |k|k|k|k|k dat|tid fl]; try done.
  all: unfold step, deliver; cbn; intros; repeat case_match; simplify_eq/=; run_goal.
  all: eauto 8 using live_inv_open, live_inv_dead with live.
Qed.

Lemma construct_live_ok room sink fails : live_ok (snd (construct room sink fails)).
Proof.
  assert (Hi : live_inv None ∅).
  { intros k sock Hl. by rewrite lookup_empty in Hl. }
  unfold construct, live_ok, initial. destruct fails; run_goal; eauto with live.
Qed.

Lemma cycling_live_ok parse s : cycling parse s -> live_ok s.
Proof.
  induction 1 as [room sink fails|s i s' _ IH Hi Hstep].
  - apply construct_live_ok.
  - eauto using step_live_ok.
Qed.

(** X3.  In every state reached without close(), a socket that is
    connecting or open is the manager's current transport: connect() never
    leaves a live socket behind. *)
Theorem one_live_socket (parse : string -> option json) (s : Sys) :
  cycling parse s ->
  forall k sock, sockets (window s) !! k = Some sock ->
                 readyState sock = CONNECTING \/ readyState sock = OPEN ->
                 ws (this s) = Some k.
Proof. intros Hc. apply (cycling_live_ok _ _ Hc). Qed.

Lemma ping_inv_delete p tms nh id :
  ping_inv p tms nh -> ping_inv p (delete id tms) nh.
Proof.
  intros (Hpos & Hp & Hown). split; [done|split; [done|]].
  intros i t Hl. apply lookup_delete_Some in Hl as [_ Hl]. eauto.
Qed.

Lemma ping_inv_insert p tms nh kind cb d :
  cb <> Ping ->
  ping_inv p tms nh ->
  ping_inv p (<[nh := {| t_kind := kind; t_callback := cb; t_delay := d |}]> tms) (S nh).
Proof.
  intros Hcb (Hpos & Hp & Hown). split; [lia|split; [done|]].
  intros i t Hl. apply lookup_insert_Some in Hl as [[_ <-]|[_ Hl]]; cbn; [done|eauto].
Qed.

Lemma ping_inv_none p tms nh i t :
  ping_inv p tms nh -> handle_truthy p = None ->
  tms !! i = Some t -> t_callback t <> Ping.
Proof.
  intros (Hpos & Hp & Hown) Hf Hl Hc.
  apply handle_truthy_None in Hf as [->| ->].
  - by specialize (Hown _ _ Hl Hc).
  - specialize (Hp 0 eq_refl). lia.
Qed.

Lemma ping_inv_rearm p tms nh old kind d :
  ping_inv p tms nh -> handle_truthy p = Some old ->
  ping_inv (Some nh)
    (<[nh := {| t_kind := kind; t_callback := Ping; t_delay := d |}]> (delete old tms)) (S nh).
Proof.
  intros (Hpos & Hp & Hown) Ht. apply handle_truthy_Some in Ht as [-> _].
  split; [lia|split].
  - intros i [= <-]. lia.
  - intros i t Hl Hc. apply lookup_insert_Some in Hl as [[-> _]|[_ Hl]]; [done|].
    apply lookup_delete_Some in Hl as [Hne Hl].
    specialize (Hown _ _ Hl Hc). congruence.
Qed.

Lemma ping_inv_arm p tms nh kind d :
  ping_inv p tms nh -> handle_truthy p = None ->
  ping_inv (Some nh)
    (<[nh := {| t_kind := kind; t_callback := Ping; t_delay := d |}]> tms) (S nh).
Proof.
  intros Hinv Ht. pose proof Hinv as (Hpos & Hp & Hown). split; [lia|split].
  - intros i [= <-]. lia.
  - intros i t Hl Hc. apply lookup_insert_Some in Hl as [[-> _]|[_ Hl]]; [done|].
    by destruct (ping_inv_none _ _ _ _ _ Hinv Ht Hl).
Qed.

Lemma ping_inv_cancel p tms nh i :
  ping_inv p tms nh -> handle_truthy p = Some i ->
  ping_inv None (delete i tms) nh.
Proof.
  intros (Hpos & Hp & Hown) Ht. apply handle_truthy_Some in Ht as [-> _].
  split; [done|split; [done|]].
  intros j t Hl Hc. apply lookup_delete_Some in Hl as [Hne Hl].
  specialize (Hown _ _ Hl Hc). congruence.
Qed.

Create HintDb ping.
#[local] Hint Resolve ping_inv_delete ping_inv_insert ping_inv_rearm ping_inv_arm
  ping_inv_cancel : ping.
#[local] Hint Extern 1 (_ <> Ping) => discriminate : ping.

Lemma step_ping_ok parse i s s' :
  ping_ok s -> step parse i s = Some s' -> ping_ok s'.
Proof.
  destruct_sys s. unfold ping_ok. cbn. intros Hinv. revert s'.
  all_inputs i.
  all: eauto 10 with ping.
Qed.

Lemma construct_ping_ok room sink fails : ping_ok (snd (construct room sink fails)).
Proof.
  assert (Hi : ping_inv None ∅ 1).
  { split; [lia|split; [done|]]. intros id t Hl. by rewrite lookup_empty in Hl. }
  unfold construct, ping_ok, initial. destruct fails; run_goal; eauto with ping.
Qed.

Lemma reachable_ping_ok parse s : reachable parse s -> ping_ok s.
Proof.
  induction 1 as [room sink fails|s i s' _ IH _ Hstep].
  - apply construct_ping_ok.
  - eauto using step_ping_ok.
Qed.

(** X4.  In every reachable state a pending heartbeat interval is the one
    whose handle is in pingInterval; so at most one is pending, and none
    when pingInterval is null. *)
Theorem single_heartbeat (parse : string -> option json) (s : Sys) :
  reachable parse s ->
  (forall id, pending_ping s id -> pingInterval (this s) = Some id) /\
  (forall i j, pending_ping s i -> pending_ping s j -> i = j) /\
  (pingInterval (this s) = None -> forall id, ~ pending_ping s id).
Proof.
  intros Hr. destruct (reachable_ping_ok _ _ Hr) as (_ & _ & Hown).
  assert (H1 : forall id, pending_ping s id -> pingInterval (this s) = Some id).
  { intros id (t & Hl & Hc). eauto. }
  split; [done|]. split.
  - intros i j Hi Hj. apply H1 in Hi, Hj. congruence.
  - intros Hn id Hp. apply H1 in Hp. congruence.
Qed.


(** X6.  When the connection timeout fires on a transport that is still
    connecting, it closes the socket (no close code) and invokes the retry
    scheduler; the close event of that socket invokes the scheduler again.
    With budget for both, one timed-out attempt thus counts two retries: the
    first reconnect timer is cleared and the pending one has the doubled
    delay. *)
Theorem timeout_costs_two_retries (parse : string -> option json) (s s1 s2 : Sys)
    (k t : nat) (fails : bool) :
  reachable parse s ->
  ws (this s) = Some k ->
  sockets (window s) !! k = Some {| readyState := CONNECTING; connectionTimeout := Some t |} ->
  timers (window s) !! t
  = Some {| t_kind := Timeout; t_callback := ConnectionTimeout; t_delay := 5000 |} ->
  (retryCount (this s) + 1 < maxRetries (this s))%Z ->
  step parse (Timer_fire t fails) s = Some s1 ->
  step parse (Ws_close k) s1 = Some s2 ->
  close_calls (trace (window s1)) = (k, None) :: close_calls (trace (window s)) /\
  retryCount (this s2) = (retryCount (this s) + 2)%Z /\
  reconnect_delays (trace (window s2))
  = Z.min (retryDelay (this s) * 2) 10000 :: retryDelay (this s)
      :: reconnect_delays (trace (window s)) /\
  ~ pending_reconnect s2 (next_handle (window s)) /\
  pending_reconnect s2 (S (next_handle (window s))).
Proof.
  intros Hr. pose proof (reachable_timers_ok _ _ Hr) as (Hpos & _). clear Hr. revert Hpos.
  destruct_sys s. unfold step, deliver, reconnect_delays, pending_reconnect. cbn.
  intros Hpos -> Hk Ht Hlt. rewrite Ht. cbn.
  assert (Hlt1 : (cnt <? mx)%Z = true) by (apply Z.ltb_lt; lia).
  assert (Hlt2 : (cnt + 1 <? mx)%Z = true) by (apply Z.ltb_lt; lia).
  unfold connectionTimeout_tick, handleReconnect. unfold_monad. cbn. rewrite Hk. cbn.
  destruct (handle_truthy rt) eqn:Hrt; cbn; rewrite Hlt1; cbn; intros [= <-]; cbn.
  all: rewrite ?lookup_alter_eq, Hk; cbn; intros [= <-].
  all: unfold ws_onclose, handleReconnect; unfold_monad; cbn.
  all: destruct (handle_truthy p) eqn:Hp; cbn.
  all: destruct (Nat.eqb_spec nh 0) as [->|_]; [lia|]; cbn; rewrite Hlt2; cbn.
  all: split; [done|]; split; [lia|]; split; [done|]; split.
  all: try (intros (tm & Hl & _); rewrite lookup_insert_ne in Hl by lia;
            by rewrite lookup_delete_eq in Hl).
  all: eexists; split; [apply lookup_insert_eq|done].
Qed.

(** X7.  close() on an open manager, followed by the close event of its
    socket: the socket is closed with code 1000, no timer is armed and no
    socket created, and the error sink (when supplied) receives the
    reconnection-exhaustion error. *)
Theorem hangup_reports_exhaustion (parse : string -> option json) (s s1 s2 : Sys) (k : nat) :
  ws (this s) = Some k -> is_open s = true ->
  step parse Call_close s = Some s1 ->
  step parse (Ws_close k) s1 = Some s2 ->
  reported (trace (window s2))
  = (if onError (this s) then exhausted :: reported (trace (window s))
     else reported (trace (window s))) /\
  armed (trace (window s2)) = armed (trace (window s)) /\
  created (trace (window s2)) = created (trace (window s)) /\
  close_calls (trace (window s2)) = (k, Some 1000%Z) :: close_calls (trace (window s)).
Proof.
  destruct_sys s. unfold step, deliver, is_open. cbn. intros -> Ho.
  apply is_OPEN_lookup in Ho as Hs. destruct Hs as ([r ct] & Hl & Hr). cbn in Hr. subst r.
  unfold close. unfold_monad. cbn.
  destruct (handle_truthy rt) eqn:Hrt; cbn; destruct (handle_truthy p) eqn:Hp; cbn;
    rewrite ?Ho; cbn; intros [= <-]; cbn; rewrite lookup_alter_eq, Hl; cbn;
    (destruct ct as [t|]; [|done]); cbn; intros [= <-].
  all: unfold ws_onclose, handleReconnect; unfold_monad; cbn.
  all: rewrite ?Hp; cbn; rewrite ?Hrt; cbn; rewrite Z.ltb_irrefl; cbn; by destruct sink.
Qed.

(** X8.  Once the retry budget is spent (retryCount not below maxRetries),
    no sequence of consumer calls, socket events and timer firings that
    contains no open event arms a reconnect timer, and the budget stays
    spent: only a socket that opens resets it. *)
Theorem exhaustion_is_terminal (parse : string -> option json) (inputs : list input) :
  forall s s',
  spent s -> Forall not_open_event inputs ->
  run parse inputs s = Some s' ->
  spent s' /\
  reconnect_delays (trace (window s')) = reconnect_delays (trace (window s)).
Proof.
  induction inputs as [|i inputs IH]; intros s s' Hsp Hall; cbn.
  - by intros [= <-].
  - apply Forall_cons in Hall as [Hi Hall].
    destruct (step parse i s) as [s1|] eqn:Hs; [|done]. intros Hr.
    destruct (step_spent _ _ _ _ Hi Hsp Hs) as [Hsp1 Hd1].
    destruct (IH _ _ Hsp1 Hall Hr) as [Hsp' Hd']. split; [done|]. congruence.
Qed.

(** X9.  Whatever the consumer calls and whatever the browser delivers
    (socket events, frames, timer callbacks), the manager's code returns
    normally: a thrown parse error, handler exception, serialisation error
    or WebSocket constructor failure is caught inside. *)
Theorem no_exception_escapes (parse : string -> option json) (i : input) (s s' : Sys)
    (r : outcome unit) :
  deliver parse i s = Some (r, s') -> r = Return tt.
Proof. intros Hd. exact (deliver_returns _ _ _ _ Hd). Qed.

(** X10.  connect() does nothing when the transport is OPEN.  Otherwise it
    calls close() (no code) on the transport it holds, if any, creates one
    socket, makes it the transport, arms one connection timeout of 5000 ms
    whose handle the socket's handlers capture, sends nothing, reports
    nothing and leaves every other field as it was.  When the WebSocket
    constructor throws, connect() still returns normally: the manager holds
    no transport, the sink is told and the retry scheduler runs. *)
Theorem connect_replaces_transport (s : Sys) :
  (is_open s = true -> forall fails, connect fails s = (Return tt, s)) /\
  (is_open s = false ->
   let s' := snd (connect false s) in
   let k := next_socket (window s) in
   let t := next_handle (window s) in
   fst (connect false s) = Return tt /\
   ws (this s') = Some k /\
   sockets (window s') !! k
   = Some {| readyState := CONNECTING; connectionTimeout := Some t |} /\
   timers (window s') !! t = Some connection_timeout /\
   created (trace (window s')) = k :: created (trace (window s)) /\
   armed (trace (window s')) = (t, connection_timeout) :: armed (trace (window s)) /\
   close_calls (trace (window s'))
   = match ws (this s) with
     | Some old => (old, None) :: close_calls (trace (window s))
     | None => close_calls (trace (window s))
     end /\
   frames (trace (window s')) = frames (trace (window s)) /\
   reported (trace (window s')) = reported (trace (window s)) /\
   set_ws None (this s') = set_ws None (this s)) /\
  (is_open s = false ->
   let s' := snd (connect true s) in
   fst (connect true s) = Return tt /\
   ws (this s') = None /\
   created (trace (window s')) = created (trace (window s)) /\
   frames (trace (window s')) = frames (trace (window s)) /\
   retryCount (this s')
   = (if (retryCount (this s) <? maxRetries (this s))%Z
      then retryCount (this s) + 1 else retryCount (this s))%Z /\
   reported (trace (window s'))
   = if onError (this s)
     then ((if (retryCount (this s) <? maxRetries (this s))%Z
            then [] else [exhausted])
           ++ DOMException "The URL is invalid" :: reported (trace (window s)))%list
     else reported (trace (window s))).
Proof.
  destruct_sys s. unfold is_open, connection_timeout. cbn. split; [|split]; intros Ho.
  - intros fails. unfold connect. unfold_monad. cbn.
    destruct w as [k|]; [|done]. by rewrite Ho.
  - unfold connect. unfold_monad. cbn. destruct w as [k|]; cbn; rewrite ?Ho; cbn.
    all: rewrite lookup_alter_eq, !lookup_insert_eq; done.
  - unfold connect, handleReconnect. unfold_monad. cbn.
    destruct w as [k|]; cbn; rewrite ?Ho; cbn;
      destruct sink; cbn; destruct (handle_truthy rt); cbn;
      destruct (cnt <? mx)%Z; cbn; done.
Qed.

(** X11.  Frames that parse but are not tagged objects: for null, reading
    message.error throws and the TypeError goes to the sink; a number,
    string, boolean or array is dropped without any effect; so is an object
    with no truthy error whose type is missing or not a string. *)
Theorem malformed_frames (parse : string -> option json) (data : string) (s : Sys)
    (message : json) :
  parse data = Some message ->
  (message = JNull ->
   exists msg, ws_onmessage parse data s = (Return tt, told (TypeError msg) s)) /\
  (match message with JNull | JObj _ => False | _ => True end ->
   ws_onmessage parse data s = (Return tt, s)) /\
  (forall fields, message = JObj fields ->
     truthy (own_property "error" fields) = false ->
     (forall t, own_property "type" fields <> Some (JStr t)) ->
     ws_onmessage parse data s = (Return tt, s)).
Proof.
  intros Hp. split; [|split].
  - intros ->. eexists. unfold ws_onmessage, told. unfold_monad. rewrite Hp. cbn.
    by destruct (onError (this s)).
  - intros Hm. rewrite (onmessage_dispatch _ _ _ message None Hp); by destruct message.
  - intros fields -> He Ht.
    rewrite (onmessage_dispatch _ _ _ _ _ Hp eq_refl He). unfold type_tag. cbn.
    destruct (own_property "type" fields) as [[| | |t| |]|] eqn:Hty; cbn; try done.
    by destruct (Ht t).
Qed.

Lemma step_no_handlers parse i s s' :
  not_registration i -> messageHandlers (this s) = ∅ ->
  step parse i s = Some s' ->
  messageHandlers (this s') = ∅ /\
  handler_calls (trace (window s')) = handler_calls (trace (window s)).
Proof.
  destruct_sys s. cbn. intros Hi ->. revert s'.
  destruct i as [m|ty hd| |k|k|k|k|k dat|tid fl]; try (by destruct (Hi ty hd)).
  all: unfold step, deliver; cbn; intros; repeat case_match; simplify_eq/=; run_goal.
  all: try done.
  all: match goal with H : ∅ !! _ = Some _ |- _ => by rewrite lookup_empty in H end.
Qed.

(** X12.  After close(), as long as onMessage is not called again, no
    handler is invoked whatever arrives: the registry stays empty. *)
Theorem no_dispatch_after_close (parse : string -> option json) (inputs : list input) :
  forall s s',
  Forall not_registration inputs ->
  run parse inputs (snd (close s)) = Some s' ->
  messageHandlers (this s') = ∅ /\
  handler_calls (trace (window s')) = handler_calls (trace (window s)).
Proof.
  assert (Hrun : forall inputs s s',
    Forall not_registration inputs -> messageHandlers (this s) = ∅ ->
    run parse inputs s = Some s' ->
    messageHandlers (this s') = ∅ /\
    handler_calls (trace (window s')) = handler_calls (trace (window s))).
  { clear inputs. induction inputs as [|i inputs IH]; intros s s' Hall He; cbn.
    - by intros [= <-].
    - apply Forall_cons in Hall as [Hi Hall].
      destruct (step parse i s) as [s1|] eqn:Hs; [|done]. intros Hr.
      destruct (step_no_handlers _ _ _ _ Hi He Hs) as [He1 Hc1].
      destruct (IH _ _ Hall He1 Hr) as [He' Hc']. split; [done|]. congruence. }
  intros s s' Hall Hr.
  assert (Hc : messageHandlers (this (snd (close s))) = ∅ /\
               handler_calls (trace (window (snd (close s))))
               = handler_calls (trace (window s))).
  { destruct_sys s. by run_method. }
  destruct Hc as [He Hc]. destruct (Hrun _ _ _ Hall He Hr) as [He' Hc'].
  split; [done|]. congruence.
Qed.

Lemma length_append (a b : string) :
  String.length (a ++ b) = String.length a + String.length b.
Proof.
  induction a as [|c a IH]; [done|].
  change (S (String.length (a ++ b)) = S (String.length a + String.length b)).
  by rewrite IH.
Qed.

Lemma append_inv_tail (a b tail : string) : a ++ tail = b ++ tail -> a = b.
Proof.
  revert b. induction a as [|c a IH]; intros b Heq.
  - destruct b as [|c' b]; [done|]. exfalso.
    apply (f_equal String.length) in Heq. rewrite !length_append in Heq.
    cbn in Heq. lia.
  - destruct b as [|c' b].
    + exfalso. apply (f_equal String.length) in Heq. rewrite !length_append in Heq.
      cbn in Heq. lia.
    + change (String c (a ++ tail) = String c' (b ++ tail)) in Heq.
      injection Heq as -> Heq. f_equal. by apply IH.
Qed.

(** X13.  The URL computed by getWebSocketUrl determines the host and
    whether the page was served over https: two pages get the same URL only
    if they have the same host and agree on being https. *)
Theorem websocket_url_faithful (p p' host host' : string) :
  getWebSocketUrl p host = getWebSocketUrl p' host' ->
  host = host' /\ (p = "https:" <-> p' = "https:").
Proof.
  unfold getWebSocketUrl.
  destruct (String.eqb_spec p "https:") as [->|Hp];
    destruct (String.eqb_spec p' "https:") as [->|Hp'];
    lazy beta iota zeta delta [String.append]; intros Heq;
    try discriminate.
  - injection Heq as Heq. split; [by eapply append_inv_tail|done].
  - injection Heq as Heq. split; [by eapply append_inv_tail|done].
Qed.

(** X14.  Construction starts one connection attempt at once: socket 1 is
    connecting and is the transport, one connection timeout of 5000 ms is
    pending, nothing is sent and the registry is empty.  When the WebSocket
    constructor throws, the constructor still returns: no socket exists, the
    sink is told, and a reconnect is scheduled after 1000 ms. *)
Theorem construction_starts_connecting (room : string) (sink : bool) :
  let s := snd (construct room sink false) in
  let f := snd (construct room sink true) in
  (fst (construct room sink false) = Return tt /\
   ws (this s) = Some 1 /\
   sockets (window s) = {[ 1 := {| readyState := CONNECTING; connectionTimeout := Some 1 |} ]} /\
   timers (window s) = {[ 1 := connection_timeout ]} /\
   trace (window s) = [EvSetTimer 1 Timeout ConnectionTimeout 5000; EvNewSocket 1] /\
   retryCount (this s) = 0%Z /\ retryDelay (this s) = 1000%Z /\
   messageHandlers (this s) = ∅ /\ roomId (this s) = room) /\
  (fst (construct room sink true) = Return tt /\
   ws (this f) = None /\ sockets (window f) = ∅ /\
   timers (window f)
   = {[ 1 := {| t_kind := Timeout; t_callback := Reconnect; t_delay := 1000 |} ]} /\
   reconnectTimer (this f) = Some 1 /\
   retryCount (this f) = 1%Z /\ retryDelay (this f) = 2000%Z /\
   reported (trace (window f))
   = if sink then [DOMException "The URL is invalid"] else []).
Proof.
  cbn zeta. split.
  - unfold construct, initial, connection_timeout. run_goal.
    repeat split; done.
  - unfold construct, initial. destruct sink; run_goal; repeat split; done.
Qed.

(** X15.  When the pending reconnect timer of a reachable state fires:
    with the transport OPEN, only reconnectTimer is reset to null; otherwise
    (the constructor succeeding) one socket is created and becomes the
    transport, reconnectTimer is null, no reconnect timer is pending and the
    retry state is unchanged. *)
Theorem reconnect_timer_fires (parse : string -> option json) (s s' : Sys) (id : nat)
    (fails : bool) :
  reachable parse s ->
  pending_reconnect s id ->
  step parse (Timer_fire id fails) s = Some s' ->
  (is_open s = true ->
   s' = {| this := set_reconnectTimer None (this s); window := window (expire id s) |}) /\
  (is_open s = false -> fails = false ->
   ws (this s') = Some (next_socket (window s)) /\
   created (trace (window s')) = next_socket (window s) :: created (trace (window s)) /\
   reconnectTimer (this s') = None /\
   (forall j, ~ pending_reconnect s' j) /\
   retryCount (this s') = retryCount (this s) /\
   retryDelay (this s') = retryDelay (this s)).
Proof.
  intros Hr (tm & Hl & Hc). pose proof (reachable_timers_ok _ _ Hr) as Hok.
  destruct Hok as (Hpos & Hfresh & Hown). destruct (Hown _ _ Hl Hc) as [Hrt Hk].
  clear Hr. revert Hpos Hfresh Hown Hrt Hl. destruct_sys s.
  unfold step, deliver, is_open, pending_reconnect. cbn.
  intros Hpos Hfresh Hown -> Hl. rewrite Hl. cbn. rewrite Hk, Hc. cbn.
  unfold reconnect_tick, connect. unfold_monad. cbn.
  intros [= <-]. split.
  - intros Ho. destruct w as [k|]; [|done]. by rewrite Ho.
  - intros Ho ->. assert (Hnone : forall j t0, delete id tms !! j = Some t0 ->
                                    t_callback t0 <> Reconnect).
    { intros j t0 Hj Hcj. apply lookup_delete_Some in Hj as [Hne Hj].
      destruct (Hown _ _ Hj Hcj) as [[= ->] _]. done. }
    destruct w as [k|]; cbn; rewrite ?Ho; cbn; repeat split; try done.
    all: intros j (t0 & Hj & Hcj);
      apply lookup_insert_Some in Hj as [[_ <-]|[_ Hj]]; [done|]; by eapply Hnone.
Qed.

Lemma sample_waiting_reachable : reachable sample_parse sample_waiting.
Proof.
  apply (reachable_via_run _ _ [Ws_close 1] sample_connecting).
  - apply reach_construct.
  - repeat constructor.
  - vm_compute. reflexivity.
Qed.

Lemma sample_open_cycling : cycling sample_parse sample_open.
Proof.
  apply (reachable_via_run _ _ [Ws_open 1] sample_connecting).
  - apply reach_construct.
  - repeat constructor; discriminate.
  - vm_compute. reflexivity.
Qed.

Lemma backoff_bounds_witness :
  retryCount (this sample_waiting) = 1%Z /\
  In (retryDelay (this sample_waiting)) [1000%Z; 2000%Z; 4000%Z; 8000%Z].
Proof.
  destruct (backoff_bounds sample_parse sample_waiting sample_waiting_reachable)
    as (_ & _ & Hd & _).
  split; [vm_compute; reflexivity|exact Hd].
Defined.

Lemma exhaustion_is_terminal_witness :
  spent sample_closed /\
  exists s', run sample_parse [Ws_close 1; Call_send (Plain (JStr "hello"))] sample_closed
             = Some s' /\
             reconnect_delays (trace (window s')) = [].
Proof.
  assert (Hsp : spent sample_closed) by (vm_compute; reflexivity).
  split; [exact Hsp|].
  destruct (run sample_parse [Ws_close 1; Call_send (Plain (JStr "hello"))] sample_closed)
    as [s'|] eqn:Hrun; [|vm_compute in Hrun; discriminate].
  exists s'. split; [reflexivity|].
  assert (Hall : Forall not_open_event [Ws_close 1; Call_send (Plain (JStr "hello"))]).
  { repeat constructor; intros k; discriminate. }
  destruct (exhaustion_is_terminal sample_parse _ _ _ Hsp Hall Hrun) as [_ ->].
  vm_compute. reflexivity.
Defined.

Lemma no_exception_escapes_witness :
  exists s', deliver sample_parse (Ws_message 1 "chat hi") (sample_chat throwing_handler)
             = Some (Return tt, s').
Proof.
  destruct (deliver sample_parse (Ws_message 1 "chat hi") (sample_chat throwing_handler))
    as [[r s']|] eqn:Hd; [|vm_compute in Hd; discriminate].
  exists s'. by rewrite (no_exception_escapes _ _ _ _ _ Hd).
Defined.

Lemma one_live_socket_witness :
  sockets (window sample_open) !! 1
  = Some {| readyState := OPEN; connectionTimeout := Some 1 |} /\
  ws (this sample_open) = Some 1.
Proof.
  assert (Hl : sockets (window sample_open) !! 1
               = Some {| readyState := OPEN; connectionTimeout := Some 1 |})
    by (vm_compute; reflexivity).
  split; [exact Hl|].
  exact (one_live_socket sample_parse sample_open sample_open_cycling 1 _ Hl (or_intror eq_refl)).
Defined.

Lemma single_heartbeat_witness :
  pending_ping sample_open 2 /\ forall j, pending_ping sample_open j -> j = 2.
Proof.
  assert (Hp : pending_ping sample_open 2) by (eexists; split; vm_compute; reflexivity).
  destruct (single_heartbeat sample_parse sample_open
              (cycling_reachable _ _ sample_open_cycling)) as (_ & Huniq & _).
  split; [exact Hp|]. intros j Hj. exact (Huniq j 2 Hj Hp).
Defined.


Lemma timeout_costs_two_retries_witness :
  let s1 := sample_timed_out in
  let s2 := default s1 (step sample_parse (Ws_close 1) s1) in
  retryCount (this sample_connecting) = 0%Z /\
  retryCount (this s2) = 2%Z /\
  reconnect_delays (trace (window s2)) = [2000%Z; 1000%Z] /\
  pending_reconnect s2 3 /\ ~ pending_reconnect s2 2.
Proof.
  cbn zeta.
  set (s2 := default sample_timed_out (step sample_parse (Ws_close 1) sample_timed_out)).
  assert (Hr : reachable sample_parse sample_connecting) by apply reach_construct.
  assert (H1 : step sample_parse (Timer_fire 1 false) sample_connecting = Some sample_timed_out)
    by (vm_compute; reflexivity).
  assert (H2 : step sample_parse (Ws_close 1) sample_timed_out = Some s2)
    by (vm_compute; reflexivity).
  destruct (timeout_costs_two_retries sample_parse sample_connecting _ _ 1 1 false Hr
              ltac:(vm_compute; reflexivity) ltac:(vm_compute; reflexivity)
              ltac:(vm_compute; reflexivity) ltac:(vm_compute; reflexivity) H1 H2)
    as (_ & Hc & Hd & Hgone & Hnew).
  split; [vm_compute; reflexivity|].
  split; [rewrite Hc; vm_compute; reflexivity|].
  split; [rewrite Hd; vm_compute; reflexivity|].
  split; [exact Hnew|exact Hgone].
Defined.

Lemma hangup_reports_exhaustion_witness :
  let s2 := default sample_closed (step sample_parse (Ws_close 1) sample_closed) in
  reported (trace (window sample_open)) = [] /\
  reported (trace (window s2)) = [exhausted].
Proof.
  cbn zeta.
  set (s2 := default sample_closed (step sample_parse (Ws_close 1) sample_closed)).
  assert (H1 : step sample_parse Call_close sample_open = Some sample_closed)
    by reflexivity.
  assert (H2 : step sample_parse (Ws_close 1) sample_closed = Some s2)
    by (vm_compute; reflexivity).
  destruct (hangup_reports_exhaustion sample_parse sample_open _ _ 1
              ltac:(vm_compute; reflexivity) ltac:(vm_compute; reflexivity) H1 H2)
    as (Hrep & _).
  split; [vm_compute; reflexivity|]. rewrite Hrep. vm_compute. reflexivity.
Defined.

Lemma connect_replaces_transport_witness :
  connect false sample_open = (Return tt, sample_open) /\
  ws (this (snd (connect false sample_waiting))) = Some 2 /\
  close_calls (trace (window (snd (connect false sample_waiting)))) = [(1, None)] /\
  ws (this (snd (connect true sample_waiting))) = None.
Proof.
  destruct (connect_replaces_transport sample_open) as (Hopen & _).
  destruct (connect_replaces_transport sample_waiting) as (_ & Hok & Hfail).
  assert (Ho : is_open sample_open = true) by (vm_compute; reflexivity).
  assert (Hw : is_open sample_waiting = false) by (vm_compute; reflexivity).
  destruct (Hok Hw) as (_ & Hws & _ & _ & _ & _ & Hcl & _).
  destruct (Hfail Hw) as (_ & Hnone & _).
  split; [exact (Hopen Ho false)|]. split; [rewrite Hws; vm_compute; reflexivity|].
  split; [rewrite Hcl; vm_compute; reflexivity|exact Hnone].
Defined.

Lemma malformed_frames_witness :
  ws_onmessage (fun _ => Some (JNum 5)) "5" sample_open = (Return tt, sample_open) /\
  exists msg, ws_onmessage (fun _ => Some JNull) "null" sample_open
              = (Return tt, told (TypeError msg) sample_open).
Proof.
  destruct (malformed_frames (fun _ => Some (JNum 5)) "5" sample_open (JNum 5) eq_refl)
    as (_ & Hprim & _).
  destruct (malformed_frames (fun _ => Some JNull) "null" sample_open JNull eq_refl)
    as (Hnull & _).
  split; [exact (Hprim I)|exact (Hnull eq_refl)].
Defined.

Lemma no_dispatch_after_close_witness :
  exists s', run sample_parse [Ws_closing 1] (sample_chat quiet_handler) = Some s' /\
  forall s'', run sample_parse [Ws_close 1] (snd (close s')) = Some s'' ->
              handler_calls (trace (window s'')) = [].
Proof.
  eexists. split; [vm_compute; reflexivity|].
  intros s'' Hrun.
  assert (Hall : Forall not_registration [Ws_close 1]).
  { repeat constructor. intros ty h. discriminate. }
  destruct (no_dispatch_after_close sample_parse _ _ _ Hall Hrun) as [_ ->].
  vm_compute. reflexivity.
Defined.

Lemma websocket_url_faithful_witness :
  getWebSocketUrl "https:" "example.org" = "wss://example.org/ws" /\
  getWebSocketUrl "http:" "localhost:5000" = "ws://localhost:5000/ws" /\
  forall host, getWebSocketUrl "https:" host = "wss://example.org/ws" -> host = "example.org".
Proof.
  split; [reflexivity|]. split; [reflexivity|].
  intros host Heq.
  exact (proj1 (websocket_url_faithful "https:" "https:" host "example.org" Heq)).
Defined.

Lemma reconnect_timer_fires_witness :
  let s' := sample_reconnecting in
  pending_reconnect sample_waiting 2 /\
  ws (this s') = Some 2 /\ created (trace (window s')) = [2; 1] /\
  forall j, ~ pending_reconnect s' j.
Proof.
  cbn zeta.
  assert (Hp : pending_reconnect sample_waiting 2)
    by (eexists; split; vm_compute; reflexivity).
  assert (Hs : step sample_parse (Timer_fire 2 false) sample_waiting = Some sample_reconnecting)
    by (vm_compute; reflexivity).
  destruct (reconnect_timer_fires sample_parse _ _ 2 false sample_waiting_reachable Hp Hs)
    as (_ & Hfire).
  destruct (Hfire ltac:(vm_compute; reflexivity) eq_refl) as (Hws & Hcr & _ & Hnone & _).
  split; [exact Hp|]. split; [rewrite Hws; vm_compute; reflexivity|].
  split; [rewrite Hcr; vm_compute; reflexivity|exact Hnone].
Defined.

Lemma frames_go_to_open_transport_witness :
  exists s', step sample_parse (Timer_fire 2 false) sample_open = Some s' /\
             frames (trace (window s')) = (1, ping_message) :: frames (trace (window sample_open)) /\
             is_open s' = true.
Proof.
  destruct (step sample_parse (Timer_fire 2 false) sample_open) as [s'|] eqn:Hs;
    [|vm_compute in Hs; discriminate].
  exists s'. split; [reflexivity|].
  assert (Hf : frames (trace (window s')) = (1, ping_message) :: frames (trace (window sample_open))).
  { vm_compute in Hs. injection Hs as <-. vm_compute. reflexivity. }
  split; [exact Hf|].
  destruct (frames_go_to_open_transport _ _ _ _ Hs) as [Heq|(k & f & _ & _ & Ho)]; [|exact Ho].
  rewrite Hf in Heq. exfalso. apply (f_equal (@List.length _)) in Heq. cbn in Heq. lia.
Defined.
